(** * The Gemini response handler of the AI chat backend

    A shallow embedding of [GeminiResponseHandler] (the per-message response
    run: [run], [handleFunctionCalls], [dispose], [handleStopGenerating],
    [handleError], [performWebSearch]) and of the part of [OpenAIAgent] that
    owns the handlers ([removeHandler]).

    The handler's mutable fields are a record threaded through a small
    state / log / exception monad.  Every call that leaves the process
    (chat transport, clock, web search) is appended to a log, so that
    properties of "what was sent, and in which order" are properties of the
    log.

    Granularity.  JavaScript runs one handler at a time; a handler gives up
    control only at an [await].  The model delivers a stop event to the
    handler while [run] is suspended in [for await], waiting for the next
    element of the stream, and lets each handler invocation finish before
    the next event is delivered: the transport calls it awaits are taken to
    settle at once and never to reject.  Module [Await] cuts [run],
    [handleStopGenerating] and [handleError] at each of their [await]s
    instead, lets a stop event arrive between any two of them and lets an
    awaited transport call fail; what depends on the order of the awaits
    is stated there. *)

From Stdlib Require Import List String ZArith Bool Lia PrimFloat.
Import ListNotations.
Local Open Scope string_scope.
Local Open Scope Z_scope.
Local Open Scope list_scope.

Set Implicit Arguments.
Set Warnings "-register-all".

(** ** JavaScript values *)

(** The payload of a function call, and whatever the web search answers, is
    JSON data.  Numbers are IEEE doubles, as in JavaScript. *)
Inductive jsval : Type :=
| JNull
| JBool (b : bool)
| JNum (x : float)
| JStr (s : string)
| JArr (elements : list jsval)
| JObj (fields : list (string * jsval)).

(** [if (v)]: an object or an array is always truthy; [0], [-0], [NaN], the
    empty string, [false] and [null] are not. *)
Definition truthy (v : jsval) : bool :=
  match v with
  | JNull => false
  | JBool b => b
  | JNum x => negb (PrimFloat.eqb x 0%float || PrimFloat.is_nan x)
  | JStr s => negb (s =? "")%string
  | JArr _ => true
  | JObj _ => true
  end.

(** [typeof v === "object" && v !== null] *)
Definition is_object (v : jsval) : bool :=
  match v with
  | JArr _ | JObj _ => true
  | _ => false
  end.

(** Property lookup [o.key] on own fields; [None] is [undefined]. *)
Fixpoint lookup_field (key : string) (fields : list (string * jsval))
  : option jsval :=
  match fields with
  | [] => None
  | (k, v) :: rest => if (k =? key)%string then Some v else lookup_field key rest
  end.

(** [(v as any).query] for an object or array [v]. *)
Definition get_query (v : jsval) : option jsval :=
  match v with
  | JObj fields => lookup_field "query" fields
  | _ => None
  end.

(** A thrown value, as far as the code looks at it: [error instanceof
    Error], [error.message] and [error.toString()]. *)
Record Error : Type := mkError {
  instanceof_Error : bool;
  error_message : option string;
  error_toString : string
}.

(** ** What the handler talks to *)

Record MessageResponse : Type := mkMessage {
  id : string;
  cid : option string
}.

(** [Event] of the chat client, as delivered for "ai_indicator.stop". *)
Record Event : Type := mkEvent {
  message_id : option string
}.

Inductive ai_state : Type :=
| AI_STATE_THINKING
| AI_STATE_EXTERNAL_SOURCES
| AI_STATE_ERROR.

(** The events the handler sends on the channel. *)
Inductive ChannelEvent : Type :=
| ai_indicator_update (state : ai_state) (cid : option string) (message_id : string)
| ai_indicator_clear (cid : option string) (message_id : string).

(** One entry of the log: a call that leaves the handler. *)
Inductive Effect : Type :=
| DateNow (now : Z)
| PartialUpdateMessage (message_id : string) (text : string) (message : option string)
| SendEvent (e : ChannelEvent)
| Off
| OnDispose
| PerformWebSearch (query : string).

(** ** The generation stream *)

Record FunctionCall : Type := mkCall {
  name : option string;
  args : option jsval
}.

Record GenerateContentResponse : Type := mkChunk {
  text : option string;
  functionCalls : option (list FunctionCall)
}.

(** What the event loop hands to the handler while [run] is consuming the
    stream: the next chunk (with the value [Date.now()] has while the chunk
    is processed), or a stop event emitted by the chat client. *)
Inductive Arrival : Type :=
| Yields (chunk : GenerateContentResponse) (now : Z)
| StopSignal (event : Event).

(** How the stream ends: it is exhausted, or pulling from it throws. *)
Inductive Ending : Type :=
| Completes
| Faults (error : Error).

Record ContentStream : Type := mkStream {
  arrivals : list Arrival;
  ending : Ending
}.

(** ** The handler's fields *)

(** The private fields of the class, the message it was created for, and
    [listening]: whether the chat client still has [handleStopGenerating]
    registered for "ai_indicator.stop". *)
Record GeminiResponseHandler : Type := mkHandler {
  message_text : string;
  chunk_counter : Z;
  run_id : string;
  is_done : bool;
  last_update_time : Z;
  message : MessageResponse;
  listening : bool
}.

(** The constructor: field initialisers, then
    [chatClient.on("ai_indicator.stop", this.handleStopGenerating)]. *)
Definition new_handler (m : MessageResponse) : GeminiResponseHandler :=
  {| message_text := "";
     chunk_counter := 0;
     run_id := "";
     is_done := false;
     last_update_time := 0;
     message := m;
     listening := true |}.

(** ** The monad: state, log and exceptions *)

Inductive Outcome (A : Type) : Type :=
| Returned (a : A)
| Thrown (e : Error).
Arguments Thrown {A} e.

Definition M (A : Type) : Type :=
  GeminiResponseHandler -> Outcome A * GeminiResponseHandler * list Effect.

Definition ret {A} (a : A) : M A := fun this => (Returned a, this, []).

Definition bind {A B} (m : M A) (k : A -> M B) : M B :=
  fun this =>
    match m this with
    | (Returned a, this', l) =>
        let '(o, this'', l') := k a this' in (o, this'', l ++ l')
    | (Thrown e, this', l) => (Thrown e, this', l)
    end.

Notation "x <- m ;; k" := (bind m (fun x => k))
  (at level 61, m at next level, right associativity).
Notation "m ;; k" := (bind m (fun _ => k))
  (at level 61, right associativity).

Definition get : M GeminiResponseHandler := fun this => (Returned this, this, []).
Definition put (h : GeminiResponseHandler) : M unit := fun _ => (Returned tt, h, []).
Definition log (e : Effect) : M unit := fun this => (Returned tt, this, [e]).
Definition throw {A} (e : Error) : M A := fun this => (Thrown e, this, []).
Definition lift {A} (o : Outcome A) : M A := fun this => (o, this, []).

(** [try { m } catch (error) { handler error }] *)
Definition try_catch {A} (m : M A) (handler : Error -> M A) : M A :=
  fun this =>
    match m this with
    | (Returned a, this', l) => (Returned a, this', l)
    | (Thrown e, this', l) =>
        let '(o, this'', l') := handler e this' in (o, this'', l ++ l')
    end.

(** [try { m } finally { f }]: [f] runs on both exits; the exit of [m]
    stands unless [f] throws. *)
Definition try_finally {A} (m : M A) (f : M unit) : M A :=
  fun this =>
    let '(o, this', l) := m this in
    match f this' with
    | (Returned _, this'', l') => (o, this'', l ++ l')
    | (Thrown e, this'', l') => (Thrown e, this'', l ++ l')
    end.

(** Projections of a finished computation. *)
Definition outcome_of {A} (r : Outcome A * GeminiResponseHandler * list Effect)
  : Outcome A := fst (fst r).
Definition handler_of {A} (r : Outcome A * GeminiResponseHandler * list Effect)
  : GeminiResponseHandler := snd (fst r).
Definition log_of {A} (r : Outcome A * GeminiResponseHandler * list Effect)
  : list Effect := snd r.

(** Field assignments. *)
Definition set_message_text (s : string) : M unit :=
  this <- get ;;
  put {| message_text := s;
         chunk_counter := this.(chunk_counter);
         run_id := this.(run_id);
         is_done := this.(is_done);
         last_update_time := this.(last_update_time);
         message := this.(message);
         listening := this.(listening) |}.

Definition set_chunk_counter (n : Z) : M unit :=
  this <- get ;;
  put {| message_text := this.(message_text);
         chunk_counter := n;
         run_id := this.(run_id);
         is_done := this.(is_done);
         last_update_time := this.(last_update_time);
         message := this.(message);
         listening := this.(listening) |}.

Definition set_is_done (b : bool) : M unit :=
  this <- get ;;
  put {| message_text := this.(message_text);
         chunk_counter := this.(chunk_counter);
         run_id := this.(run_id);
         is_done := b;
         last_update_time := this.(last_update_time);
         message := this.(message);
         listening := this.(listening) |}.

Definition set_last_update_time (t : Z) : M unit :=
  this <- get ;;
  put {| message_text := this.(message_text);
         chunk_counter := this.(chunk_counter);
         run_id := this.(run_id);
         is_done := this.(is_done);
         last_update_time := t;
         message := this.(message);
         listening := this.(listening) |}.

(** ** The chat client and the channel *)

(** [chatClient.partialUpdateMessage(id, { set: { text, message } })] *)
Definition partialUpdateMessage (message_id : string) (text : string)
  (message : option string) : M unit :=
  log (PartialUpdateMessage message_id text message).

(** [channel.sendEvent(e)] *)
Definition sendEvent (e : ChannelEvent) : M unit := log (SendEvent e).

(** [chatClient.off("ai_indicator.stop", this.handleStopGenerating)] *)
Definition chatClient_off : M unit :=
  this <- get ;;
  put {| message_text := this.(message_text);
         chunk_counter := this.(chunk_counter);
         run_id := this.(run_id);
         is_done := this.(is_done);
         last_update_time := this.(last_update_time);
         message := this.(message);
         listening := false |} ;;
  log Off.

(** [this.onDispose()], the callback the agent passed to the constructor. *)
Definition onDispose : M unit := log OnDispose.

(** [Date.now()], the clock reading being supplied by the environment. *)
Definition Date_now (now : Z) : M Z := log (DateNow now) ;; ret now.

(** ** Built-in functions and the outside world *)

(** The response object [fetch] resolves to. *)
Record Response : Type := mkResponse {
  ok : bool;
  status : float;
  response_text : Outcome string;
  response_json : Outcome jsval
}.

Record Output : Type := mkOutput {
  output_name : string;
  response : jsval
}.

(** One element of [toolOutputs]. *)
Record ToolOutput : Type := mkToolOutput {
  functionCall : FunctionCall;
  output : Output
}.

(** JavaScript's own [String(v)], [JSON.stringify(v)] and [JSON.parse(s)]
    (which throws on a malformed string). *)
Record Builtins : Type := mkBuiltins {
  ToString : jsval -> string;
  JSON_stringify : jsval -> string;
  JSON_parse : string -> Outcome jsval
}.

Section Handler.

Variable js : Builtins.

(** *** performWebSearch *)

Section Tavily.

(** [process.env.TAVILY_API_KEY] and the network: [fetch url
    authorization body]. *)
Variable TAVILY_API_KEY : option string.
Variable fetch : string -> string -> string -> Outcome Response.

(** The [catch] block of [performWebSearch]. *)
Definition search_exception (error : Error) : string :=
  js.(JSON_stringify)
    (JObj (("error", JStr "An exception occurred during the search.") ::
           (if error.(instanceof_Error)
            then match error.(error_message) with
                 | Some m => [("message", JStr m)]
                 | None => []
                 end
            else [("message", JStr "Unknown error")]))).

Definition search_request (query : string) : string :=
  js.(JSON_stringify)
    (JObj [("query", JStr query);
           ("search_depth", JStr "advanced");
           ("max_results", JNum 5%float);
           ("include_answer", JBool true);
           ("include_raw_content", JBool false)]).

Definition performWebSearch (query : string) : Outcome string :=
  match TAVILY_API_KEY with
  | None | Some EmptyString =>
      Returned (js.(JSON_stringify)
        (JObj [("error",
                JStr "Web search is not available. API key not configured.")]))
  | Some key =>
      match fetch "https://api.tavily.com/search"
                  ("Bearer " ++ key)%string (search_request query) with
      | Thrown error => Returned (search_exception error)
      | Returned response =>
          if negb response.(ok) then
            match response.(response_text) with
            | Thrown error => Returned (search_exception error)
            | Returned errorText =>
                Returned (js.(JSON_stringify)
                  (JObj [("error",
                          JStr ("Search failed with status: "
                                ++ js.(ToString) (JNum response.(status)))%string);
                         ("details", JStr errorText)]))
            end
          else
            match response.(response_json) with
            | Thrown error => Returned (search_exception error)
            | Returned data => Returned (js.(JSON_stringify) data)
            end
      end
  end.

End Tavily.

(** *** handleFunctionCalls *)

(** [this.performWebSearch], taken as any function from a query to a
    result or a fault. *)
Variable provider : string -> Outcome string.

Definition call_performWebSearch (query : string) : M string :=
  log (PerformWebSearch query) ;;
  lift (provider query).

(** The value of [queryForSearch] (lines 87-101). *)
Definition queryForSearch (args : jsval) : string :=
  if is_object args then
    match get_query args with
    | Some (JStr maybeQuery) => maybeQuery
    | Some JNull | None => js.(JSON_stringify) args
    | Some maybeQuery => js.(ToString) maybeQuery
    end
  else js.(ToString) args.

Definition failed_to_call_tool : Output :=
  {| output_name := "web_search";
     response := JObj [("error", JStr "failed to call tool")] |}.

(** The [try] / [catch] of one web search call; the result is what is
    pushed on [toolOutputs]. *)
Definition web_search (call : FunctionCall) (args : jsval) : M ToolOutput :=
  try_catch
    (searchResult <- call_performWebSearch (queryForSearch args) ;;
     parsed <- lift (js.(JSON_parse) searchResult) ;;
     ret {| functionCall := call;
            output := {| output_name := "web_search"; response := parsed |} |})
    (fun e => ret {| functionCall := call; output := failed_to_call_tool |}).

(** [call.name === "web_search" && call.args] *)
Definition is_web_search (call : FunctionCall) : option jsval :=
  match call.(name), call.(args) with
  | Some n, Some a => if (n =? "web_search")%string && truthy a then Some a else None
  | _, _ => None
  end.

(** [for (const call of functionCalls) ...] *)
Fixpoint for_calls (functionCalls : list FunctionCall)
  (toolOutputs : list ToolOutput) : M (list ToolOutput) :=
  match functionCalls with
  | [] => ret toolOutputs
  | call :: rest =>
      match is_web_search call with
      | Some a =>
          o <- web_search call a ;;
          for_calls rest (toolOutputs ++ [o])
      | None => for_calls rest toolOutputs
      end
  end.

Definition handleFunctionCalls (functionCalls : list FunctionCall)
  (cid : option string) (message_id : string) : M (list ToolOutput) :=
  sendEvent (ai_indicator_update AI_STATE_EXTERNAL_SOURCES cid message_id) ;;
  for_calls functionCalls [].

(** *** dispose, handleStopGenerating, handleError *)

Definition dispose : M unit :=
  this <- get ;;
  if this.(is_done) then ret tt
  else
    set_is_done true ;;
    chatClient_off ;;
    onDispose.

(** [event.message_id !== this.message.id] *)
Definition differs (event_message_id : option string) (message_id : string)
  : bool :=
  match event_message_id with
  | Some m => negb (m =? message_id)%string
  | None => true
  end.

Definition handleStopGenerating (event : Event) : M unit :=
  this <- get ;;
  if this.(is_done) || differs event.(message_id) this.(message).(id)
  then ret tt
  else
    sendEvent (ai_indicator_clear this.(message).(cid) this.(message).(id)) ;;
    dispose.

Definition handleError (error : Error) : M unit :=
  this <- get ;;
  if this.(is_done) then ret tt
  else
    sendEvent (ai_indicator_update AI_STATE_ERROR
                 this.(message).(cid) this.(message).(id)) ;;
    partialUpdateMessage this.(message).(id)
      ("Error: " ++ match error.(error_message) with
                    | Some m => m
                    | None => "Error generating the message"
                    end)%string
      (Some error.(error_toString)) ;;
    dispose.

(** The chat client emits "ai_indicator.stop": the listener is called if
    it is still registered. *)
Definition emit_stop (event : Event) : M unit :=
  this <- get ;;
  if this.(listening) then handleStopGenerating event else ret tt.

(** *** run *)

(** The body of the [for await] loop, for one chunk. *)
Definition on_chunk (chunk : GenerateContentResponse) (now : Z) : M unit :=
  this <- get ;;
  let message_id := this.(message).(id) in
  let channelId := this.(message).(cid) in
  match chunk.(functionCalls) with
  | Some (call :: calls) =>
      handleFunctionCalls (call :: calls) channelId message_id ;; ret tt
  | _ => ret tt
  end ;;
  match chunk.(text) with
  | Some chunk_text =>
      if (chunk_text =? "")%string then ret tt
      else
        this <- get ;;
        set_message_text (this.(message_text) ++ chunk_text)%string ;;
        now <- Date_now now ;;
        this <- get ;;
        (if now - this.(last_update_time) >? 1000 then
           partialUpdateMessage message_id this.(message_text) None ;;
           set_last_update_time now
         else ret tt) ;;
        this <- get ;;
        set_chunk_counter (this.(chunk_counter) + 1)
  | None => ret tt
  end.

(** [for await (const chunk of this.contentStream)], with the stop events
    that arrive while the loop waits. *)
Fixpoint for_await (arrivals : list Arrival) (ending : Ending) : M unit :=
  match arrivals with
  | [] =>
      match ending with
      | Completes => ret tt
      | Faults error => throw error
      end
  | Yields chunk now :: rest => on_chunk chunk now ;; for_await rest ending
  | StopSignal event :: rest => emit_stop event ;; for_await rest ending
  end.

Definition run (contentStream : ContentStream) : M unit :=
  this <- get ;;
  let message_id := this.(message).(id) in
  try_finally
    (try_catch
       (for_await contentStream.(arrivals) contentStream.(ending) ;;
        this <- get ;;
        partialUpdateMessage message_id this.(message_text) None ;;
        sendEvent (ai_indicator_clear this.(message).(cid) message_id))
       (fun error => handleError error))
    dispose.

End Handler.

(** ** The agent that owns the handlers *)

(** [OpenAIAgent.handlers]: handlers are compared by identity, so a handler
    is named by a number here. *)
Definition removeHandler (handlerToRemove : nat) (handlers : list nat)
  : list nat :=
  filter (fun handler => negb (handler =? handlerToRemove)%nat) handlers.

(** The agent's [handlers] once the log of the handler [self] has been
    played: each [OnDispose] is a call of [() => this.removeHandler(handler)]. *)
Fixpoint handlers_after (self : nat) (l : list Effect) (handlers : list nat)
  : list nat :=
  match l with
  | [] => handlers
  | OnDispose :: l' => handlers_after self l' (removeHandler self handlers)
  | _ :: l' => handlers_after self l' handlers
  end.

(** ** Reading the log *)

Definition is_Off (e : Effect) : bool :=
  match e with Off => true | _ => false end.

Definition is_OnDispose (e : Effect) : bool :=
  match e with OnDispose => true | _ => false end.

Definition is_clear (e : Effect) : bool :=
  match e with SendEvent (ai_indicator_clear _ _) => true | _ => false end.

Definition is_error_status (e : Effect) : bool :=
  match e with
  | SendEvent (ai_indicator_update AI_STATE_ERROR _ _) => true
  | _ => false
  end.

Definition is_external_sources (e : Effect) : bool :=
  match e with
  | SendEvent (ai_indicator_update AI_STATE_EXTERNAL_SOURCES _ _) => true
  | _ => false
  end.

Definition is_text_update (e : Effect) : bool :=
  match e with PartialUpdateMessage _ _ _ => true | _ => false end.

Definition is_web_search_call (e : Effect) : bool :=
  match e with PerformWebSearch _ => true | _ => false end.

(** How many entries of the log satisfy [p]. *)
Definition count (p : Effect -> bool) (l : list Effect) : nat :=
  List.length (filter p l).

(** The texts of the message updates, in the order they were sent. *)
Fixpoint update_texts (l : list Effect) : list string :=
  match l with
  | [] => []
  | PartialUpdateMessage _ text _ :: l' => text :: update_texts l'
  | _ :: l' => update_texts l'
  end.

(** The queries the web search was called with, in order. *)
Fixpoint queries (l : list Effect) : list string :=
  match l with
  | [] => []
  | PerformWebSearch q :: l' => q :: queries l'
  | _ :: l' => queries l'
  end.

(** The clock readings at which a message update was sent: inside the loop
    an update directly follows the [Date.now()] it was decided on. *)
Fixpoint flush_times (l : list Effect) : list Z :=
  match l with
  | [] => []
  | DateNow now :: l' =>
      match l' with
      | PartialUpdateMessage _ _ _ :: _ => now :: flush_times l'
      | _ => flush_times l'
      end
  | _ :: l' => flush_times l'
  end.

(** The text fragments of the chunks of a stream, in stream order. *)
Definition fragment (a : Arrival) : string :=
  match a with
  | Yields chunk _ =>
      match chunk.(text) with Some s => s | None => "" end
  | StopSignal _ => ""
  end.

Definition concatenation (arrivals : list Arrival) : string :=
  fold_right (fun a s => (fragment a ++ s)%string) "" arrivals.

(** [s] is an initial part of [t]. *)
Definition prefix_of (s t : string) : Prop := exists u, t = (s ++ u)%string.

(** The handler after its first [dispose]. *)
Definition disposed (this : GeminiResponseHandler) : GeminiResponseHandler :=
  {| message_text := this.(message_text);
     chunk_counter := this.(chunk_counter);
     run_id := this.(run_id);
     is_done := true;
     last_update_time := this.(last_update_time);
     message := this.(message);
     listening := false |}.

(** ** The methods in closed form *)

(** The functions of this part say, without the monad, what a method
    returns, how it leaves the handler and what it logs.  The lemmas of
    section [Equations] below prove that the methods above are equal to
    them. *)

(** What one dispatched web search leaves on [toolOutputs]. *)
Definition result_of (js : Builtins) (provider : string -> Outcome string)
  (call : FunctionCall) (args : jsval) : ToolOutput :=
  match provider (queryForSearch js args) with
  | Thrown _ => {| functionCall := call; output := failed_to_call_tool |}
  | Returned searchResult =>
      match js.(JSON_parse) searchResult with
      | Thrown _ => {| functionCall := call; output := failed_to_call_tool |}
      | Returned parsed =>
          {| functionCall := call;
             output := {| output_name := "web_search"; response := parsed |} |}
      end
  end.

(** The calls that pass the test of line 84, each with its payload. *)
Definition dispatched (functionCalls : list FunctionCall)
  : list (FunctionCall * jsval) :=
  flat_map (fun call => match is_web_search call with
                        | Some a => [(call, a)]
                        | None => []
                        end) functionCalls.

(** The log of the tool step of one chunk. *)
Definition calls_log (js : Builtins) (this : GeminiResponseHandler)
  (chunk : GenerateContentResponse) : list Effect :=
  match chunk.(functionCalls) with
  | Some (call :: calls) =>
      SendEvent (ai_indicator_update AI_STATE_EXTERNAL_SOURCES
                   this.(message).(cid) this.(message).(id))
      :: map (fun ca => PerformWebSearch (queryForSearch js (snd ca)))
             (dispatched (call :: calls))
  | _ => []
  end.

(** The text step of one chunk: the handler after it, and its log. *)
Definition text_step (this : GeminiResponseHandler)
  (chunk : GenerateContentResponse) (now : Z)
  : GeminiResponseHandler * list Effect :=
  match chunk.(text) with
  | Some chunk_text =>
      if (chunk_text =? "")%string then (this, [])
      else
        let grown := (this.(message_text) ++ chunk_text)%string in
        if now - this.(last_update_time) >? 1000 then
          ({| message_text := grown;
              chunk_counter := this.(chunk_counter) + 1;
              run_id := this.(run_id);
              is_done := this.(is_done);
              last_update_time := now;
              message := this.(message);
              listening := this.(listening) |},
           [DateNow now; PartialUpdateMessage this.(message).(id) grown None])
        else
          ({| message_text := grown;
              chunk_counter := this.(chunk_counter) + 1;
              run_id := this.(run_id);
              is_done := this.(is_done);
              last_update_time := this.(last_update_time);
              message := this.(message);
              listening := this.(listening) |},
           [DateNow now])
  | None => (this, [])
  end.

(** The [catch] and [finally] part of [run], entered with the fault
    [error]. *)
Definition error_step (this : GeminiResponseHandler) (error : Error)
  : list Effect :=
  if this.(is_done) then []
  else
    [SendEvent (ai_indicator_update AI_STATE_ERROR
                  this.(message).(cid) this.(message).(id));
     PartialUpdateMessage this.(message).(id)
       ("Error: " ++ match error.(error_message) with
                     | Some m => m
                     | None => "Error generating the message"
                     end)%string
       (Some error.(error_toString));
     Off; OnDispose].

(** One arrival as a function: the handler after it, and its log. *)
Definition arrive (js : Builtins) (a : Arrival) (this : GeminiResponseHandler)
  : GeminiResponseHandler * list Effect :=
  match a with
  | Yields chunk now =>
      (fst (text_step this chunk now),
       calls_log js this chunk ++ snd (text_step this chunk now))
  | StopSignal event =>
      if this.(listening)
         && negb (this.(is_done)
                  || differs event.(message_id) this.(message).(id))
      then (disposed this,
            [SendEvent (ai_indicator_clear this.(message).(cid)
                          this.(message).(id)); Off; OnDispose])
      else (this, [])
  end.

(** The arrivals of a stream, one after the other. *)
Fixpoint drain (js : Builtins) (arrivals : list Arrival)
  (this : GeminiResponseHandler) : GeminiResponseHandler * list Effect :=
  match arrivals with
  | [] => (this, [])
  | a :: rest =>
      (fst (drain js rest (fst (arrive js a this))),
       snd (arrive js a this) ++ snd (drain js rest (fst (arrive js a this))))
  end.

(** Consecutive clock readings are at least [gap] apart. *)
Fixpoint spaced (gap : Z) (times : list Z) : Prop :=
  match times with
  | [] => True
  | t :: rest =>
      match rest with
      | [] => True
      | t' :: _ => gap <= t' - t
      end /\ spaced gap rest
  end.

(** Each text extends the one before it. *)
Fixpoint growing (texts : list string) : Prop :=
  match texts with
  | [] => True
  | s :: rest =>
      match rest with
      | [] => True
      | s' :: _ =>
          prefix_of s s' /\ (String.length s <= String.length s')%nat
      end /\ growing rest
  end.

(** A tally of the one-off entries: none if the handler was done before
    the step, one if the step is the one that disposes. *)
Definition once (before after : GeminiResponseHandler) : nat :=
  if before.(is_done) then 0%nat
  else if after.(is_done) then 1%nat else 0%nat.

(** ** Sample values *)

Module Sample.

Definition quote (s : string) : string :=
  let q := String (Ascii.ascii_of_nat 34) EmptyString in (q ++ s ++ q)%string.

(** [JSON.stringify] on values built from strings, booleans, null, arrays
    and objects; strings are taken to need no escaping, and a number is
    written as JSON writes [NaN]. *)
Fixpoint stringify (v : jsval) : string :=
  match v with
  | JNull => "null"
  | JBool true => "true"
  | JBool false => "false"
  | JNum _ => "null"
  | JStr s => quote s
  | JArr elements =>
      ("[" ++ (fix items (l : list jsval) : string :=
                 match l with
                 | [] => ""
                 | x :: r =>
                     match r with
                     | [] => stringify x
                     | _ :: _ => stringify x ++ "," ++ items r
                     end
                 end) elements ++ "]")%string
  | JObj fields =>
      ("{" ++ (fix members (l : list (string * jsval)) : string :=
                 match l with
                 | [] => ""
                 | (k, x) :: r =>
                     match r with
                     | [] => quote k ++ ":" ++ stringify x
                     | _ :: _ => quote k ++ ":" ++ stringify x ++ "," ++ members r
                     end
                 end) fields ++ "}")%string
  end.

(** [String(v)] on strings, booleans, null and plain objects. *)
Definition to_string (v : jsval) : string :=
  match v with
  | JNull => "null"
  | JBool true => "true"
  | JBool false => "false"
  | JNum _ => "NaN"
  | JStr s => s
  | JArr _ => ""
  | JObj _ => "[object Object]"
  end.

Definition syntax_error : Error :=
  {| instanceof_Error := true;
     error_message := Some "Unexpected token";
     error_toString := "SyntaxError: Unexpected token" |}.

(** [JSON.parse] on the two texts the samples use. *)
Definition parse (s : string) : Outcome jsval :=
  if (s =? "{}")%string then Returned (JObj [])
  else if (s =? "null")%string then Returned JNull
  else Thrown syntax_error.

Definition js : Builtins :=
  {| ToString := to_string; JSON_stringify := stringify; JSON_parse := parse |}.

Definition network_error : Error :=
  {| instanceof_Error := true;
     error_message := Some "fetch failed";
     error_toString := "TypeError: fetch failed" |}.

(** A provider that answers, and one that throws. *)
Definition answering (query : string) : Outcome string := Returned "{}".
Definition failing (query : string) : Outcome string := Thrown network_error.

Definition msg : MessageResponse :=
  {| id := "m1"; cid := Some "messaging:c1" |}.

Definition text_chunk (s : string) : GenerateContentResponse :=
  {| text := Some s; functionCalls := None |}.

Definition calls_chunk (calls : list FunctionCall) : GenerateContentResponse :=
  {| text := None; functionCalls := Some calls |}.

Definition search (a : jsval) : FunctionCall :=
  {| name := Some "web_search"; args := Some a |}.

Definition stop (message_id : string) : Event :=
  {| message_id := Some message_id |}.

End Sample.

(** ** More ways to read a stream and a log *)

(** The stream with the stop events left out. *)
Definition without_stops (arrivals : list Arrival) : list Arrival :=
  filter (fun a => match a with Yields _ _ => true | StopSignal _ => false end)
         arrivals.

(** How many chunks carry a text that is not empty. *)
Fixpoint text_chunks (arrivals : list Arrival) : Z :=
  match arrivals with
  | [] => 0
  | Yields chunk _ :: rest =>
      match chunk.(text) with
      | Some s => if (s =? "")%string then text_chunks rest
                  else 1 + text_chunks rest
      | None => text_chunks rest
      end
  | StopSignal _ :: rest => text_chunks rest
  end.

(** The log entry is addressed to the message [m] (or to nobody: a clock
    reading, a web search, the unsubscription, the release). *)
Definition addressed_to (m : MessageResponse) (e : Effect) : Prop :=
  match e with
  | PartialUpdateMessage i _ _ => i = m.(id)
  | SendEvent (ai_indicator_update _ c i) => c = m.(cid) /\ i = m.(id)
  | SendEvent (ai_indicator_clear c i) => c = m.(cid) /\ i = m.(id)
  | _ => True
  end.

(** ** The agent *)

Set Warnings "-inexact-float".

Module OpenAIAgent.

(** [e.message] of a "message.new" event, as far as [handleMessage] reads
    it: [text], [ai_generated] and [custom.writingTask]. *)
Record Message : Type := mkUserMessage {
  user_text : option string;
  ai_generated : bool;
  writingTask : option string
}.

(** The calls the agent makes on the chat client, the channel and the
    generation backend. *)
Inductive Call : Type :=
| On_message_new
| Off_message_new
| DisconnectUser
| SendMessage (text : string) (ai_generated : bool)
| SendStatus (e : ChannelEvent)
| GenerateContentStream (model : string) (content : string)
    (temperature : float).

(** The fields of the agent, and [subscribed]: whether the chat client has
    [handleMessage] registered for "message.new".  A handler object is named
    by a number. *)
Record Agent : Type := mkAgent {
  genai : option string;
  lastInteractionTs : Z;
  handlers : list nat;
  subscribed : bool
}.

(** The constructor, [now] being [Date.now()]. *)
Definition new_agent (now : Z) : Agent :=
  {| genai := None; lastInteractionTs := now; handlers := [];
     subscribed := false |}.

Definition getLastInteraction (agent : Agent) : Z := agent.(lastInteractionTs).

(** [init], with [process.env.GEMINI_API_KEY]. *)
Definition init (GEMINI_API_KEY : option string) (agent : Agent)
  : Outcome unit * Agent * list Call :=
  match GEMINI_API_KEY with
  | None | Some EmptyString =>
      (Thrown {| instanceof_Error := true;
                 error_message := Some "GEMINI_API_KEY is required"%string;
                 error_toString := "Error: GEMINI_API_KEY is required" |},
       agent, [])
  | Some apiKey =>
      (Returned tt,
       {| genai := Some apiKey;
          lastInteractionTs := agent.(lastInteractionTs);
          handlers := agent.(handlers);
          subscribed := true |},
       [On_message_new])
  end.

(** The agent's own [dispose]. *)
Definition dispose (agent : Agent) : Outcome unit * Agent * list Call :=
  (Returned tt,
   {| genai := agent.(genai);
      lastInteractionTs := agent.(lastInteractionTs);
      handlers := agent.(handlers);
      subscribed := false |},
   [Off_message_new; DisconnectUser]).

Definition newline : string := String (Ascii.ascii_of_nat 10) EmptyString.

(** [getWritingAssistantPrompt], [date] being what
    [new Date().toLocaleDateString("en-US")] gives. *)
Definition getWritingAssistantPrompt (date : string) (context : option string)
  : string :=
  (newline ++ "You are an expert writing assistant." ++ newline
   ++ "Current Date: " ++ date ++ newline
   ++ "Context: "
   ++ match context with
      | None | Some EmptyString => "General writing assistance."
      | Some c => c
      end ++ newline
   ++ "Write clearly and professionally. No disclaimers." ++ newline)%string.

(** The identity of a handler object just created: different from every
    handler in the list. *)
Definition fresh (handlers : list nat) : nat := S (list_max handlers).

(** What [handleMessage] starts with [void handler.run()]: the new handler,
    its identity and the stream it consumes. *)
Record Started : Type := mkStarted {
  self : nat;
  handler : GeminiResponseHandler;
  contentStream : ContentStream
}.

Section Environment.

(** What the outside answers during one [handleMessage]: the date, the
    clock, the placeholder message [channel.sendMessage] resolves to, and
    the stream [generateContentStream] resolves to, unless it throws. *)
Variable date : string.
Variable now : Z.
Variable channelMessage : MessageResponse.
Variable runStream : Outcome ContentStream.

Definition handleMessage (e : option Message) (agent : Agent)
  : Outcome (option Started) * Agent * list Call :=
  match agent.(genai) with
  | None => (Returned None, agent, [])
  | Some _ =>
      match e with
      | None => (Returned None, agent, [])
      | Some e_message =>
          if e_message.(ai_generated) then (Returned None, agent, [])
          else
            match e_message.(user_text) with
            | None | Some EmptyString => (Returned None, agent, [])
            | Some message =>
                let context :=
                  match e_message.(writingTask) with
                  | None | Some EmptyString => None
                  | Some task => Some ("Writing Task: " ++ task)%string
                  end in
                let instructions := getWritingAssistantPrompt date context in
                let fullContent :=
                  (instructions ++ newline ++ newline ++ "User Message: "
                   ++ message)%string in
                let calls :=
                  [SendMessage "" true;
                   SendStatus (ai_indicator_update AI_STATE_THINKING
                                 channelMessage.(cid) channelMessage.(id));
                   GenerateContentStream "gemini-2.5-flash" fullContent
                     0.7%float] in
                match runStream with
                | Thrown error =>
                    (Thrown error,
                     {| genai := agent.(genai);
                        lastInteractionTs := now;
                        handlers := agent.(handlers);
                        subscribed := agent.(subscribed) |},
                     calls)
                | Returned stream =>
                    let started :=
                      {| self := fresh agent.(handlers);
                         handler := new_handler channelMessage;
                         contentStream := stream |} in
                    (Returned (Some started),
                     {| genai := agent.(genai);
                        lastInteractionTs := now;
                        handlers := agent.(handlers) ++ [started.(self)];
                        subscribed := agent.(subscribed) |},
                     calls)
                end
            end
      end
  end.

(** The chat client emits "message.new": the listener is called if it is
    registered. *)
Definition emit_message_new (e : option Message) (agent : Agent)
  : Outcome (option Started) * Agent * list Call :=
  if agent.(subscribed) then handleMessage e agent
  else (Returned None, agent, []).

End Environment.

(** The agent once the log of the handler [self] has been played: each
    [OnDispose] in it is a call of [this.removeHandler(handler)]. *)
Definition after_run (self : nat) (l : list Effect) (agent : Agent) : Agent :=
  {| genai := agent.(genai);
     lastInteractionTs := agent.(lastInteractionTs);
     handlers := handlers_after self l agent.(handlers);
     subscribed := agent.(subscribed) |}.

(** A "message.new" event that carries back a message the agent has sent
    itself. *)
Definition echo (c : Call) : option Message :=
  match c with
  | SendMessage text ai_generated =>
      Some {| user_text := Some text; ai_generated := ai_generated;
              writingTask := None |}
  | _ => None
  end.

End OpenAIAgent.

(** ** The values the web search serializes *)

(** The value of the "not configured" answer of [performWebSearch]. *)
Definition not_configured : jsval :=
  JObj [("error"%string,
         JStr "Web search is not available. API key not configured.")].

(** The value serialized by the [catch] block of [performWebSearch]. *)
Definition exception_value (error : Error) : jsval :=
  JObj (("error"%string, JStr "An exception occurred during the search.") ::
        (if error.(instanceof_Error)
         then match error.(error_message) with
              | Some m => [("message"%string, JStr m)]
              | None => []
              end
         else [("message"%string, JStr "Unknown error")])).

(** ** Built-ins that read back what they wrote *)

Module Known.

(** [JSON.parse] on the texts of the values of [known]: the first value
    whose JSON text is [s]. *)
Fixpoint parse_among (known : list jsval) (s : string) : Outcome jsval :=
  match known with
  | [] => Thrown Sample.syntax_error
  | v :: rest =>
      if (Sample.stringify v =? s)%string then Returned v
      else parse_among rest s
  end.

Definition js (known : list jsval) : Builtins :=
  {| ToString := Sample.to_string;
     JSON_stringify := Sample.stringify;
     JSON_parse := parse_among known |}.

End Known.

(** ** The handler at the grain of its awaits *)

(** The definitions above let a listener finish once it has started.  The
    source gives up control at every [await] of a call that leaves the
    process: [for await] (l.28), [channel.sendEvent] (l.73, l.139, l.151),
    [performWebSearch] (l.103) and [partialUpdateMessage] inside
    [handleError] (l.157).  Here [run], [handleStopGenerating] and
    [handleError] are cut at these points, and a schedule says in which
    order the suspended calls go on and the stop events arrive, and whether
    a transport call that is awaited settles or fails.  What
    [handleFunctionCalls] returns is left out, since [run] drops it
    (l.30). *)

Module Await.

(** What pulling from the stream can throw: [null] or [undefined]; an
    object without a [toString] method; anything else, read through its
    [message] and its [toString()]. *)
Inductive Fault : Type :=
| Nullish
| NoToString (message : option string)
| AnError (error : Error).

(** How the stream ends. *)
Inductive End : Type :=
| Exhausted
| Throws (fault : Fault).

(** Where [run] is suspended: in the pull of [for await] (l.28); in
    [handleFunctionCalls], at its [sendEvent] (l.73) or at a
    [performWebSearch] (l.103), with the calls of the chunk that are still
    to be looked at; in the closing of the stream, when the body of the
    loop has thrown [e]; in [handleError], at its [sendEvent] (l.151) or at
    its [partialUpdateMessage] (l.157); or not any more. *)
Inductive Stage : Type :=
| InForAwait
| InSendEvent (calls : list FunctionCall) (chunk : GenerateContentResponse)
    (now : Z)
| InPerformWebSearch (rest : list FunctionCall)
    (chunk : GenerateContentResponse) (now : Z)
| InIteratorClose (e : Error)
| InErrorStatus (fault : Fault)
| InErrorUpdate
| Settled (o : Outcome unit).

(** The handler, where its [run] stands, what the stream still holds and
    how it ends, how many calls of the stop listener are suspended at their
    [await] (l.139), and the log so far. *)
Record Config : Type := mkConfig {
  handler : GeminiResponseHandler;
  stage : Stage;
  upcoming : list (GenerateContentResponse * Z);
  finish : End;
  suspended : nat;
  sent : list Effect
}.

(** [run] has been called and waits for the first element of the stream. *)
Definition start (m : MessageResponse)
  (chunks : list (GenerateContentResponse * Z)) (e : End) : Config :=
  {| handler := new_handler m;
     stage := InForAwait;
     upcoming := chunks;
     finish := e;
     suspended := 0;
     sent := [] |}.

(** Run a piece of code that has no [await] in it. *)
Definition perform (m : M unit) (next : Stage)
  (rest : list (GenerateContentResponse * Z)) (c : Config) : Config :=
  let '(_, this, l) := m c.(handler) in
  {| handler := this;
     stage := next;
     upcoming := rest;
     finish := c.(finish);
     suspended := c.(suspended);
     sent := c.(sent) ++ l |}.

(** Lines 37-47: the text of one chunk. *)
Definition append_text (chunk : GenerateContentResponse) (now : Z) : M unit :=
  match chunk.(text) with
  | Some chunk_text =>
      if (chunk_text =? "")%string then ret tt
      else
        this <- get ;;
        set_message_text (this.(message_text) ++ chunk_text)%string ;;
        now <- Date_now now ;;
        this <- get ;;
        (if now - this.(last_update_time) >? 1000 then
           partialUpdateMessage this.(message).(id) this.(message_text) None ;;
           set_last_update_time now
         else ret tt) ;;
        this <- get ;;
        set_chunk_counter (this.(chunk_counter) + 1)
  | None => ret tt
  end.

(** Lines 82-103: the loop over the calls up to the next call of
    [performWebSearch]: its query, and the calls that are left. *)
Fixpoint next_search (js : Builtins) (calls : list FunctionCall)
  : option (string * list FunctionCall) :=
  match calls with
  | [] => None
  | call :: rest =>
      match is_web_search call with
      | Some a => Some (queryForSearch js a, rest)
      | None => next_search js rest
      end
  end.

(** What reading [message] of [null] throws (the wording is the
    engine's). *)
Definition type_error : Error :=
  {| instanceof_Error := true;
     error_message :=
       Some "Cannot read properties of null (reading 'message')"%string;
     error_toString :=
       "TypeError: Cannot read properties of null (reading 'message')" |}.

(** What calling a [toString] that is not there throws. *)
Definition not_a_function : Error :=
  {| instanceof_Error := true;
     error_message := Some "error.toString is not a function"%string;
     error_toString := "TypeError: error.toString is not a function" |}.

(** The arguments of [partialUpdateMessage] in [handleError] (l.158-161):
    the text and the [message] field, unless evaluating them throws. *)
Definition error_arguments (fault : Fault) : Outcome (string * string) :=
  match fault with
  | Nullish => Thrown type_error
  | NoToString _ => Thrown not_a_function
  | AnError error =>
      Returned (("Error: " ++ match error.(error_message) with
                              | Some m => m
                              | None => "Error generating the message"
                              end)%string,
                error.(error_toString))
  end.

(** What happens next: the call [run] waits for settles; the transport
    call [run] waits for fails with [e]; a stop event arrives; the
    [sendEvent] a call of the stop listener waits for settles, or fails. *)
Inductive Tick : Type :=
| Resume
| Rejects (e : Error)
| StopArrives (event : Event)
| StopResumes
| StopRejects.

(** No transport call fails. *)
Definition settles (t : Tick) : bool :=
  match t with
  | Rejects _ | StopRejects => false
  | _ => true
  end.

Section Steps.

Variable js : Builtins.

(** Lines 60-62, up to the first [await] of [handleError] (l.151), or to
    the [finally] if the handler is done. *)
Definition catch (fault : Fault) (c : Config) : Config :=
  let this := c.(handler) in
  if this.(is_done) then perform dispose (Settled (Returned tt)) [] c
  else
    perform
      (sendEvent (ai_indicator_update AI_STATE_ERROR
                    this.(message).(cid) this.(message).(id)))
      (InErrorStatus fault) [] c.

(** The call [run] waits for has settled: [run] goes on to its next
    [await], or to its end. *)
Definition resume (c : Config) : Config :=
  let this := c.(handler) in
  let message_id := this.(message).(id) in
  match c.(stage) with
  | InForAwait =>
      match c.(upcoming) with
      | (chunk, now) :: rest =>
          match chunk.(functionCalls) with
          | Some (call :: calls) =>
              perform
                (sendEvent (ai_indicator_update AI_STATE_EXTERNAL_SOURCES
                              this.(message).(cid) message_id))
                (InSendEvent (call :: calls) chunk now) rest c
          | _ => perform (append_text chunk now) InForAwait rest c
          end
      | [] =>
          match c.(finish) with
          | Exhausted =>
              perform
                (partialUpdateMessage message_id this.(message_text) None ;;
                 sendEvent (ai_indicator_clear this.(message).(cid) message_id) ;;
                 dispose)
                (Settled (Returned tt)) [] c
          | Throws fault => catch fault c
          end
      end
  | InSendEvent calls chunk now
  | InPerformWebSearch calls chunk now =>
      match next_search js calls with
      | Some (query, rest) =>
          perform (log (PerformWebSearch query))
            (InPerformWebSearch rest chunk now) c.(upcoming) c
      | None => perform (append_text chunk now) InForAwait c.(upcoming) c
      end
  | InIteratorClose e => catch (AnError e) c
  | InErrorStatus fault =>
      match error_arguments fault with
      | Thrown e => perform dispose (Settled (Thrown e)) [] c
      | Returned (error_text, error_string) =>
          perform
            (partialUpdateMessage message_id error_text (Some error_string))
            InErrorUpdate [] c
      end
  | InErrorUpdate => perform (dispose ;; dispose) (Settled (Returned tt)) [] c
  | Settled _ => c
  end.

(** The transport call [run] waits for fails with [e].  At line 73
    [handleFunctionCalls] rejects and [for await] is left: it closes the
    stream and waits for that.  At lines 151 and 157 [handleError] rejects,
    so [run] does after its [finally].  A failure of [performWebSearch]
    stays inside [handleFunctionCalls] (l.110) and the stream is no
    transport call: there the tick does nothing. *)
Definition rejects (e : Error) (c : Config) : Config :=
  match c.(stage) with
  | InSendEvent _ _ _ =>
      {| handler := c.(handler);
         stage := InIteratorClose e;
         upcoming := [];
         finish := c.(finish);
         suspended := c.(suspended);
         sent := c.(sent) |}
  | InErrorStatus _ | InErrorUpdate =>
      perform dispose (Settled (Thrown e)) [] c
  | _ => c
  end.

(** The chat client emits "ai_indicator.stop": if the listener is
    registered, [handleStopGenerating] runs up to its [await] (l.133-143). *)
Definition stop_arrives (event : Event) (c : Config) : Config :=
  let this := c.(handler) in
  if this.(listening) then
    if this.(is_done) || differs event.(message_id) this.(message).(id)
    then c
    else
      {| handler := this;
         stage := c.(stage);
         upcoming := c.(upcoming);
         finish := c.(finish);
         suspended := S c.(suspended);
         sent := c.(sent)
                 ++ [SendEvent (ai_indicator_clear this.(message).(cid)
                                  this.(message).(id))] |}
  else c.

(** A suspended call of the listener goes on: [await this.dispose()]
    (l.144). *)
Definition stop_resumes (c : Config) : Config :=
  match c.(suspended) with
  | O => c
  | S n =>
      let '(_, this, l) := dispose c.(handler) in
      {| handler := this;
         stage := c.(stage);
         upcoming := c.(upcoming);
         finish := c.(finish);
         suspended := n;
         sent := c.(sent) ++ l |}
  end.

(** The [sendEvent] a suspended call of the listener waits for fails:
    the call ends there, before its [dispose]. *)
Definition stop_rejects (c : Config) : Config :=
  match c.(suspended) with
  | O => c
  | S n =>
      {| handler := c.(handler);
         stage := c.(stage);
         upcoming := c.(upcoming);
         finish := c.(finish);
         suspended := n;
         sent := c.(sent) |}
  end.

Definition step (t : Tick) (c : Config) : Config :=
  match t with
  | Resume => resume c
  | Rejects e => rejects e c
  | StopArrives event => stop_arrives event c
  | StopResumes => stop_resumes c
  | StopRejects => stop_rejects c
  end.

Fixpoint exec (schedule : list Tick) (c : Config) : Config :=
  match schedule with
  | [] => c
  | t :: rest => exec rest (step t c)
  end.

End Steps.

(** How many stop events for the message [own_id] a schedule delivers. *)
Fixpoint own_stops (own_id : string) (schedule : list Tick) : nat :=
  match schedule with
  | [] => 0%nat
  | StopArrives event :: rest =>
      if differs event.(message_id) own_id then own_stops own_id rest
      else S (own_stops own_id rest)
  | _ :: rest => own_stops own_id rest
  end.

(** How often a schedule lets [run] go on. *)
Fixpoint resumes (schedule : list Tick) : nat :=
  match schedule with
  | [] => 0%nat
  | Resume :: rest => S (resumes rest)
  | _ :: rest => resumes rest
  end.

(** An upper bound of the number of times [run] has to go on before it
    settles. *)
Fixpoint cost (chunks : list (GenerateContentResponse * Z)) : nat :=
  match chunks with
  | [] => 3%nat
  | (chunk, _) :: rest =>
      match chunk.(functionCalls) with
      | Some calls => S (S (List.length (dispatched calls))) + cost rest
      | None => S (cost rest)
      end
  end.

(** [run] is still in its loop. *)
Definition in_loop (s : Stage) : bool :=
  match s with
  | InForAwait | InSendEvent _ _ _ | InPerformWebSearch _ _ _ => true
  | _ => false
  end.

(** What holds of every configuration a schedule without a failing
    transport call can lead to, from the start of a run for the message
    [m] over a stream that ends with [fin]. *)
Definition sound (m : MessageResponse) (fin : End) (c : Config) : Prop :=
  c.(handler).(message) = m
  /\ c.(finish) = fin
  /\ (c.(handler).(is_done) = false ->
      count is_clear c.(sent) = c.(suspended))
  /\ (in_loop c.(stage) = true -> count is_error_status c.(sent) = 0%nat)
  /\ (forall o, c.(stage) = Settled o -> c.(handler).(is_done) = true)
  /\ (forall o, c.(stage) = Settled o ->
      fin = Exhausted \/ (exists e, fin = Throws (AnError e)) ->
      o = Returned tt)
  /\ (forall f, c.(stage) = InErrorStatus f -> fin = Throws f)
  /\ (c.(stage) = InErrorUpdate -> exists e, fin = Throws (AnError e))
  /\ (forall e, c.(stage) <> InIteratorClose e)
  /\ (forall o, c.(stage) = Settled o -> fin = Exhausted ->
      (1 <= count is_clear c.(sent))%nat).



(** The same stream, for [run] above: no stop event arrives. *)
Definition stream_of (chunks : list (GenerateContentResponse * Z))
  (e : Ending) : ContentStream :=
  {| arrivals := map (fun cn => Yields (fst cn) (snd cn)) chunks;
     ending := e |}.

Definition end_of (e : Ending) : End :=
  match e with
  | Completes => Exhausted
  | Faults error => Throws (AnError error)
  end.

(** [run] may still send its own status clear (l.54). *)
Definition owed (c : Config) : nat :=
  match c.(stage) with
  | Settled _ => 0%nat
  | _ => 1%nat
  end.

(** An upper bound of the number of times [run] still has to go on. *)
Definition left (c : Config) : nat :=
  match c.(stage) with
  | InForAwait => cost c.(upcoming)
  | InSendEvent calls _ _ | InPerformWebSearch calls _ _ =>
      S (List.length (dispatched calls)) + cost c.(upcoming)
  | InIteratorClose _ => 3%nat
  | InErrorStatus _ => 2%nat
  | InErrorUpdate => 1%nat
  | Settled _ => 0%nat
  end.

End Await.

(** ** Strings *)

Lemma append_nil_r (s : string) : (s ++ "")%string = s.
Proof. induction s as [|c s IH]; simpl; [reflexivity | now rewrite IH]. Qed.

Lemma append_assoc (s t u : string) :
  ((s ++ t) ++ u)%string = (s ++ (t ++ u))%string.
Proof. induction s as [|c s IH]; simpl; [reflexivity | now rewrite IH]. Qed.

Lemma length_append (s t : string) :
  String.length (s ++ t) = (String.length s + String.length t)%nat.
Proof. induction s as [|c s IH]; simpl; [reflexivity | now rewrite IH]. Qed.

Lemma prefix_of_refl (s : string) : prefix_of s s.
Proof. exists ""%string. now rewrite append_nil_r. Qed.

Lemma prefix_of_append (s t : string) : prefix_of s (s ++ t).
Proof. now exists t. Qed.

Lemma prefix_of_trans (s t u : string) :
  prefix_of s t -> prefix_of t u -> prefix_of s u.
Proof.
  intros [v ->] [w ->]. exists (v ++ w)%string. apply append_assoc.
Qed.

Lemma prefix_of_length (s t : string) :
  prefix_of s t -> (String.length s <= String.length t)%nat.
Proof. intros [u ->]. rewrite length_append. lia. Qed.

(** ** Counting in the log *)

Lemma count_app (p : Effect -> bool) (l l' : list Effect) :
  count p (l ++ l') = (count p l + count p l')%nat.
Proof. unfold count. now rewrite filter_app, length_app. Qed.

Lemma update_texts_app (l l' : list Effect) :
  update_texts (l ++ l') = update_texts l ++ update_texts l'.
Proof.
  induction l as [|e l IH]; simpl; [reflexivity|].
  destruct e; simpl; now rewrite IH.
Qed.

Lemma queries_app (l l' : list Effect) :
  queries (l ++ l') = queries l ++ queries l'.
Proof.
  induction l as [|e l IH]; simpl; [reflexivity|].
  destruct e; simpl; now rewrite IH.
Qed.

Lemma handlers_after_app (self : nat) (l l' : list Effect) (hs : list nat) :
  handlers_after self (l ++ l') hs
  = handlers_after self l' (handlers_after self l hs).
Proof.
  revert hs. induction l as [|e l IH]; intros hs; simpl; [reflexivity|].
  destruct e; apply IH.
Qed.

Lemma removeHandler_idempotent (self : nat) (hs : list nat) :
  removeHandler self (removeHandler self hs) = removeHandler self hs.
Proof.
  unfold removeHandler. induction hs as [|x hs IH]; simpl; [reflexivity|].
  destruct (x =? self)%nat eqn:E; simpl; [exact IH|].
  rewrite E. simpl. now rewrite IH.
Qed.

Lemma removeHandler_removes (self : nat) (hs : list nat) :
  ~ In self (removeHandler self hs).
Proof.
  unfold removeHandler. intros H. apply filter_In in H as [_ H].
  now rewrite Nat.eqb_refl in H.
Qed.

(** ** The methods are equal to their closed forms *)

Section Equations.

Variable js : Builtins.
Variable provider : string -> Outcome string.

Lemma dispose_eq (this : GeminiResponseHandler) :
  dispose this
  = if this.(is_done) then (Returned tt, this, [])
    else (Returned tt, disposed this, [Off; OnDispose]).
Proof. unfold dispose, bind, get. cbn. now destruct (is_done this). Qed.

Lemma handleStopGenerating_eq (event : Event) (this : GeminiResponseHandler) :
  handleStopGenerating event this
  = if this.(is_done) || differs event.(message_id) this.(message).(id)
    then (Returned tt, this, [])
    else (Returned tt, disposed this,
          [SendEvent (ai_indicator_clear this.(message).(cid)
                        this.(message).(id)); Off; OnDispose]).
Proof.
  unfold handleStopGenerating, dispose, bind, get. cbn.
  destruct (is_done this) eqn:D; cbn; [reflexivity|].
  destruct (differs _ _); [reflexivity|].
  cbn. rewrite D. reflexivity.
Qed.

Lemma emit_stop_eq (event : Event) (this : GeminiResponseHandler) :
  emit_stop event this
  = if this.(listening) then handleStopGenerating event this
    else (Returned tt, this, []).
Proof.
  unfold emit_stop, bind, get. cbv beta iota.
  destruct (listening this); [|reflexivity].
  destruct (handleStopGenerating event this) as [[o h] l]. reflexivity.
Qed.

Lemma handleError_eq (error : Error) (this : GeminiResponseHandler) :
  handleError error this
  = (Returned tt, if this.(is_done) then this else disposed this,
     error_step this error).
Proof.
  unfold handleError, dispose, error_step, bind, get. cbn.
  destruct (is_done this) eqn:D; [reflexivity|].
  cbn. rewrite D. reflexivity.
Qed.

Lemma web_search_eq (call : FunctionCall) (a : jsval)
  (this : GeminiResponseHandler) :
  web_search js provider call a this
  = (Returned (result_of js provider call a), this,
     [PerformWebSearch (queryForSearch js a)]).
Proof.
  unfold web_search, result_of, try_catch, call_performWebSearch, bind,
    lift, log, ret.
  cbn. destruct (provider (queryForSearch js a)) as [s|e]; cbn;
    [|reflexivity].
  destruct (JSON_parse js s); reflexivity.
Qed.

Lemma for_calls_eq (functionCalls : list FunctionCall)
  (toolOutputs : list ToolOutput) (this : GeminiResponseHandler) :
  for_calls js provider functionCalls toolOutputs this
  = (Returned (toolOutputs
               ++ map (fun ca => result_of js provider (fst ca) (snd ca))
                      (dispatched functionCalls)),
     this,
     map (fun ca => PerformWebSearch (queryForSearch js (snd ca)))
         (dispatched functionCalls)).
Proof.
  revert toolOutputs.
  induction functionCalls as [|call rest IH]; intros toolOutputs; simpl.
  - unfold ret. now rewrite app_nil_r.
  - unfold dispatched. simpl. fold (dispatched rest).
    destruct (is_web_search call) as [a|]; simpl.
    + unfold bind. rewrite web_search_eq, IH. simpl.
      now rewrite <- app_assoc.
    + apply IH.
Qed.

Lemma handleFunctionCalls_eq (functionCalls : list FunctionCall)
  (cid : option string) (message_id : string)
  (this : GeminiResponseHandler) :
  handleFunctionCalls js provider functionCalls cid message_id this
  = (Returned (map (fun ca => result_of js provider (fst ca) (snd ca))
                   (dispatched functionCalls)),
     this,
     SendEvent (ai_indicator_update AI_STATE_EXTERNAL_SOURCES cid message_id)
     :: map (fun ca => PerformWebSearch (queryForSearch js (snd ca)))
            (dispatched functionCalls)).
Proof.
  unfold handleFunctionCalls, bind, sendEvent, log.
  rewrite for_calls_eq. reflexivity.
Qed.

Lemma on_chunk_eq (chunk : GenerateContentResponse) (now : Z)
  (this : GeminiResponseHandler) :
  on_chunk js provider chunk now this
  = (Returned tt, fst (text_step this chunk now),
     calls_log js this chunk ++ snd (text_step this chunk now)).
Proof.
  unfold on_chunk, calls_log, text_step.
  destruct chunk as [tx fc]. cbn [text functionCalls].
  unfold bind at 1. unfold get at 1. cbn beta iota.
  assert (E : forall (k : M unit),
    (match fc with
     | Some (call :: calls) =>
         handleFunctionCalls js provider (call :: calls)
           (cid (message this)) (id (message this)) ;; ret tt
     | _ => ret tt
     end ;; k) this
    = let '(o, h, l) := k this in
      (o, h, match fc with
             | Some (call :: calls) =>
                 SendEvent (ai_indicator_update AI_STATE_EXTERNAL_SOURCES
                              (cid (message this)) (id (message this)))
                 :: map (fun ca => PerformWebSearch (queryForSearch js (snd ca)))
                        (dispatched (call :: calls))
             | _ => []
             end ++ l)).
  { intros k. unfold bind at 1.
    destruct fc as [[|call calls]|]; try (cbn; now destruct (k this) as [[o h] l]).
    unfold bind at 1. rewrite handleFunctionCalls_eq. cbn.
    rewrite app_nil_r. now destruct (k this) as [[o h] l]. }
  rewrite E. clear E.
  destruct tx as [s|]; [|cbn; now rewrite app_nil_r].
  destruct (s =? "")%string; [cbn; now rewrite app_nil_r|].
  unfold bind, get, set_message_text, set_last_update_time,
    set_chunk_counter, Date_now, partialUpdateMessage, put, log, ret.
  cbn. destruct (now - last_update_time this >? 1000); cbn; reflexivity.
Qed.

Lemma for_await_eq (arrivals : list Arrival) (ending : Ending)
  (this : GeminiResponseHandler) :
  for_await js provider arrivals ending this
  = (match ending with
     | Completes => Returned tt
     | Faults error => Thrown error
     end,
     fst (drain js arrivals this), snd (drain js arrivals this)).
Proof.
  revert this. induction arrivals as [|a rest IH]; intros this.
  - simpl. destruct ending; reflexivity.
  - destruct a as [chunk now|event]; simpl for_await; unfold bind.
    + rewrite on_chunk_eq, IH. reflexivity.
    + rewrite emit_stop_eq, handleStopGenerating_eq. simpl drain.
      unfold arrive.
      destruct (listening this); simpl andb.
      * destruct (is_done this || differs (message_id event) (id (message this)));
          simpl negb; cbv iota; rewrite IH; reflexivity.
      * rewrite IH. reflexivity.
Qed.

Lemma text_step_message (this : GeminiResponseHandler)
  (chunk : GenerateContentResponse) (now : Z) :
  message (fst (text_step this chunk now)) = message this
  /\ is_done (fst (text_step this chunk now)) = is_done this
  /\ listening (fst (text_step this chunk now)) = listening this.
Proof.
  unfold text_step. destruct (text chunk) as [s|]; [|now repeat split].
  destruct (s =? "")%string; [now repeat split|].
  destruct (now - last_update_time this >? 1000); now repeat split.
Qed.

Lemma arrive_message (a : Arrival) (this : GeminiResponseHandler) :
  message (fst (arrive js a this)) = message this.
Proof.
  destruct a as [chunk now|event]; simpl.
  - apply text_step_message.
  - destruct (listening this && _); reflexivity.
Qed.

Lemma drain_message (arrivals : list Arrival) (this : GeminiResponseHandler) :
  message (fst (drain js arrivals this)) = message this.
Proof.
  revert this. induction arrivals as [|a rest IH]; intros this; simpl.
  - reflexivity.
  - now rewrite IH, arrive_message.
Qed.

Lemma run_eq (contentStream : ContentStream) (this : GeminiResponseHandler) :
  run js provider contentStream this
  = let after := fst (drain js contentStream.(arrivals) this) in
    (Returned tt,
     if after.(is_done) then after else disposed after,
     snd (drain js contentStream.(arrivals) this)
     ++ match contentStream.(ending) with
        | Completes =>
            [PartialUpdateMessage this.(message).(id) after.(message_text) None;
             SendEvent (ai_indicator_clear this.(message).(cid)
                          this.(message).(id))]
            ++ (if after.(is_done) then [] else [Off; OnDispose])
        | Faults error => error_step after error
        end).
Proof.
  unfold run, try_finally, try_catch. unfold bind at 1. unfold get at 1.
  cbv beta iota zeta. unfold bind at 1. rewrite for_await_eq.
  pose proof (drain_message (arrivals contentStream) this) as Hm.
  destruct (ending contentStream) as [|error].
  - unfold bind, get, partialUpdateMessage, sendEvent, log. cbv beta iota.
    rewrite dispose_eq, Hm.
    destruct (is_done (fst (drain js (arrivals contentStream) this)));
      simpl; rewrite ?app_nil_r, <- ?app_assoc; reflexivity.
  - rewrite handleError_eq. cbv beta iota.
    rewrite dispose_eq. unfold error_step.
    destruct (is_done (fst (drain js (arrivals contentStream) this))) eqn:D;
      simpl; rewrite ?D, ?app_nil_r; simpl; rewrite ?app_nil_r;
      reflexivity.
Qed.

End Equations.

(** ** What the loop leaves in the log *)

Section Loop.

Variable js : Builtins.

Lemma calls_log_count (p : Effect -> bool) (this : GeminiResponseHandler)
  (chunk : GenerateContentResponse) :
  (forall c m, p (SendEvent (ai_indicator_update AI_STATE_EXTERNAL_SOURCES c m))
               = false) ->
  (forall q, p (PerformWebSearch q) = false) ->
  count p (calls_log js this chunk) = 0%nat.
Proof.
  intros He Hq. unfold calls_log, count.
  destruct (functionCalls chunk) as [[|call calls]|]; try reflexivity.
  generalize (dispatched (call :: calls)). intros l.
  simpl. rewrite He.
  induction l as [|ca l IH]; simpl; [reflexivity|].
  now rewrite Hq.
Qed.

Lemma text_step_count (p : Effect -> bool) (this : GeminiResponseHandler)
  (chunk : GenerateContentResponse) (now : Z) :
  (forall t, p (DateNow t) = false) ->
  (forall m s o, p (PartialUpdateMessage m s o) = false) ->
  count p (snd (text_step this chunk now)) = 0%nat.
Proof.
  intros Hd Hu. unfold text_step, count.
  destruct (text chunk) as [s|]; [|reflexivity].
  destruct (s =? "")%string; [reflexivity|].
  destruct (now - last_update_time this >? 1000); simpl;
    now rewrite ?Hd, ?Hu.
Qed.

Lemma arrive_once (p : Effect -> bool) (a : Arrival)
  (this : GeminiResponseHandler) :
  (forall c m, p (SendEvent (ai_indicator_update AI_STATE_EXTERNAL_SOURCES c m))
               = false) ->
  (forall q, p (PerformWebSearch q) = false) ->
  (forall t, p (DateNow t) = false) ->
  (forall m s o, p (PartialUpdateMessage m s o) = false) ->
  count p [SendEvent (ai_indicator_clear this.(message).(cid)
                        this.(message).(id)); Off; OnDispose] = 1%nat ->
  count p (snd (arrive js a this)) = once this (fst (arrive js a this))
  /\ (this.(is_done) = true -> (fst (arrive js a this)).(is_done) = true).
Proof.
  intros He Hq Hd Hu H1. unfold once. destruct a as [chunk now|event]; simpl.
  - rewrite count_app, calls_log_count, text_step_count by assumption.
    destruct (text_step_message this chunk now) as (_ & -> & _).
    split; [now destruct (is_done this)|trivial].
  - destruct (listening this); simpl.
    + destruct (is_done this) eqn:D; simpl; [now rewrite D|].
      destruct (differs _ _); simpl; [now rewrite D|].
      split; [exact H1|discriminate].
    + split; [now destruct (is_done this)|trivial].
Qed.

Lemma drain_once (p : Effect -> bool) (arrivals : list Arrival)
  (this : GeminiResponseHandler) :
  (forall c m, p (SendEvent (ai_indicator_update AI_STATE_EXTERNAL_SOURCES c m))
               = false) ->
  (forall q, p (PerformWebSearch q) = false) ->
  (forall t, p (DateNow t) = false) ->
  (forall m s o, p (PartialUpdateMessage m s o) = false) ->
  (forall c m, count p [SendEvent (ai_indicator_clear c m); Off; OnDispose]
               = 1%nat) ->
  count p (snd (drain js arrivals this)) = once this (fst (drain js arrivals this))
  /\ (this.(is_done) = true -> (fst (drain js arrivals this)).(is_done) = true).
Proof.
  intros He Hq Hd Hu H1. revert this.
  induction arrivals as [|a rest IH]; intros this.
  - simpl. unfold once. split; [now destruct (is_done this)|trivial].
  - simpl drain. simpl fst. simpl snd. rewrite count_app.
    destruct (arrive_once p a this He Hq Hd Hu (H1 _ _)) as [Ha Da].
    destruct (IH (fst (arrive js a this))) as [Hr Dr].
    rewrite Ha, Hr. unfold once in *.
    destruct (is_done this) eqn:D.
    + rewrite (Da eq_refl). split; [reflexivity|]. intros _. now apply Dr, Da.
    + split; [|discriminate].
      destruct (is_done (fst (arrive js a this))) eqn:D1.
      * now rewrite (Dr eq_refl).
      * reflexivity.
Qed.

(** The listener is registered exactly as long as the handler is not done. *)
Lemma drain_listening (arrivals : list Arrival) (this : GeminiResponseHandler) :
  this.(listening) = negb this.(is_done) ->
  (fst (drain js arrivals this)).(listening)
  = negb (fst (drain js arrivals this)).(is_done).
Proof.
  revert this. induction arrivals as [|a rest IH]; intros this H; simpl.
  - exact H.
  - apply IH. destruct a as [chunk now|event]; simpl.
    + destruct (text_step_message this chunk now) as (_ & -> & ->). exact H.
    + destruct (listening this && _); [reflexivity|exact H].
Qed.

Lemma handlers_after_count (self : nat) (l : list Effect) (hs : list nat) :
  handlers_after self l hs
  = Nat.iter (count is_OnDispose l) (removeHandler self) hs.
Proof.
  revert hs. induction l as [|e l IH]; intros hs; [reflexivity|].
  destruct e; simpl; rewrite IH; try reflexivity.
  unfold count. simpl. fold (count is_OnDispose l).
  generalize (count is_OnDispose l). intros n.
  induction n as [|n IHn]; simpl; [reflexivity|now rewrite IHn].
Qed.

End Loop.

(** ** Disposal *)

(** C1.  Whatever the stream yields, however it ends (exhausted or by a
    fault) and whichever stop events arrive on the way, [run] returns
    normally and its log holds exactly one [Off] (the unsubscription of the
    "ai_indicator.stop" listener) and exactly one [OnDispose] (the release
    callback, which removes the handler from the agent's list once).
    Afterwards the handler is done and no longer listens; [dispose] on a
    handler that is done returns without a log entry and without a change
    of state, and so does every stop event that arrives later. *)
Theorem dispose_exactly_once (js : Builtins)
  (provider : string -> Outcome string) (m : MessageResponse)
  (contentStream : ContentStream) (self : nat) (handlers : list nat) :
  let finished := run js provider contentStream (new_handler m) in
  outcome_of finished = Returned tt
  /\ count is_Off (log_of finished) = 1%nat
  /\ count is_OnDispose (log_of finished) = 1%nat
  /\ handlers_after self (log_of finished) handlers
     = removeHandler self handlers
  /\ is_done (handler_of finished) = true
  /\ listening (handler_of finished) = false
  /\ (forall this, is_done this = true -> dispose this = (Returned tt, this, []))
  /\ (forall event,
        emit_stop event (handler_of finished)
        = (Returned tt, handler_of finished, [])
        /\ handleStopGenerating event (handler_of finished)
           = (Returned tt, handler_of finished, [])).
Proof.
  intros finished.
  assert (Hoff : count is_Off (log_of finished) = 1%nat
                 /\ count is_OnDispose (log_of finished) = 1%nat
                 /\ is_done (handler_of finished) = true
                 /\ listening (handler_of finished) = false).
  { subst finished. rewrite run_eq.
    unfold log_of, handler_of. cbv zeta. simpl fst. simpl snd.
    set (start := new_handler m).
    destruct (drain_once js is_Off (arrivals contentStream) start)
      as [Hoff _]; try (intros; reflexivity).
    destruct (drain_once js is_OnDispose (arrivals contentStream) start)
      as [Hrel _]; try (intros; reflexivity).
    pose proof (drain_listening js (arrivals contentStream) start eq_refl)
      as Hl.
    rewrite !count_app, Hoff, Hrel. unfold once. simpl (is_done start).
    cbv iota.
    destruct (is_done (fst (drain js (arrivals contentStream) start))) eqn:D.
    - rewrite Hl, D.
      destruct (ending contentStream); unfold error_step; rewrite ?D;
        repeat split; reflexivity.
    - destruct (ending contentStream); unfold error_step; rewrite ?D;
        repeat split; reflexivity. }
  destruct Hoff as (Hoff & Hrel & Hdone & Hlisten).
  repeat split; try assumption.
  - subst finished. now rewrite run_eq.
  - rewrite handlers_after_count, Hrel. reflexivity.
  - intros this H. now rewrite dispose_eq, H.
  - rewrite emit_stop_eq, Hlisten. reflexivity.
  - rewrite handleStopGenerating_eq, Hdone. reflexivity.
Qed.

(** ** Stop events *)

Lemma differs_spec (event_message_id : option string) (message_id : string) :
  differs event_message_id message_id = true
  <-> event_message_id <> Some message_id.
Proof.
  unfold differs. destruct event_message_id as [s|].
  - destruct (String.eqb_spec s message_id) as [->|N]; simpl.
    + split; [discriminate|]. intros H. now elim H.
    + split; [|reflexivity]. intros _ H. now injection H.
  - split; [discriminate|reflexivity].
Qed.

(** C9.  A stop event whose message id is not the id of the handler's own
    message, or that reaches a handler that is already done, changes
    nothing: [handleStopGenerating] returns with the handler as it was and
    an empty log (no status event, no unsubscription, no release), and so
    does the delivery of the event by the chat client. *)
Theorem stop_for_other_message_is_ignored (event : Event)
  (this : GeminiResponseHandler) :
  is_done this = true \/ event.(message_id) <> Some this.(message).(id) ->
  handleStopGenerating event this = (Returned tt, this, [])
  /\ emit_stop event this = (Returned tt, this, []).
Proof.
  intros H.
  assert (E : handleStopGenerating event this = (Returned tt, this, [])).
  { rewrite handleStopGenerating_eq.
    destruct H as [D|N].
    - now rewrite D.
    - apply differs_spec in N. rewrite N. now rewrite orb_true_r. }
  split; [exact E|].
  rewrite emit_stop_eq, E. now destruct (listening this).
Qed.

Lemma stop_for_other_message_is_ignored_witness :
  let this := new_handler Sample.msg in
  let event := Sample.stop "m2" in
  handleStopGenerating event this = (Returned tt, this, [])
  /\ emit_stop event this = (Returned tt, this, []).
Proof.
  apply (stop_for_other_message_is_ignored (Sample.stop "m2")
           (new_handler Sample.msg)).
  right. simpl. discriminate.
Defined.

(** C3 (the code departs from it).  The stream yields "Hel", then a stop
    event for the handler's own message arrives, then the stream yields
    "lo" and ends.  The stop is handled (status cleared, listener removed,
    release callback called), and yet the loop goes on: the second chunk is
    consumed, its text is appended, the message is updated to "Hello" and
    the status is cleared a second time. *)
Theorem stop_does_not_end_consumption :
  run Sample.js Sample.answering
    {| arrivals := [Yields (Sample.text_chunk "Hel") 5000;
                    StopSignal (Sample.stop "m1");
                    Yields (Sample.text_chunk "lo") 5100];
       ending := Completes |}
    (new_handler Sample.msg)
  = (Returned tt,
     {| message_text := "Hello";
        chunk_counter := 2;
        run_id := "";
        is_done := true;
        last_update_time := 5000;
        message := Sample.msg;
        listening := false |},
     [DateNow 5000;
      PartialUpdateMessage "m1" "Hel" None;
      SendEvent (ai_indicator_clear (Some "messaging:c1") "m1");
      Off;
      OnDispose;
      DateNow 5100;
      PartialUpdateMessage "m1" "Hello" None;
      SendEvent (ai_indicator_clear (Some "messaging:c1") "m1")]).
Proof. vm_compute. reflexivity. Qed.

(** ** Stream faults *)

(** The scenario of the specification: one chunk "partial", then a fault. *)
Example fault_after_partial :
  run Sample.js Sample.answering
    {| arrivals := [Yields (Sample.text_chunk "partial") 5000];
       ending := Faults Sample.network_error |}
    (new_handler Sample.msg)
  = (Returned tt,
     {| message_text := "partial";
        chunk_counter := 1;
        run_id := "";
        is_done := true;
        last_update_time := 5000;
        message := Sample.msg;
        listening := false |},
     [DateNow 5000;
      PartialUpdateMessage "m1" "partial" None;
      SendEvent (ai_indicator_update AI_STATE_ERROR (Some "messaging:c1") "m1");
      PartialUpdateMessage "m1" "Error: fetch failed"
        (Some "TypeError: fetch failed");
      Off;
      OnDispose]).
Proof. vm_compute. reflexivity. Qed.

(** ** Text updates *)

Lemma growing_cons (s : string) (texts : list string) :
  Forall (prefix_of s) texts -> growing texts -> growing (s :: texts).
Proof.
  intros F G. simpl. split; [|exact G].
  destruct texts as [|s' rest]; [trivial|].
  inversion F; subst. split; [assumption|now apply prefix_of_length].
Qed.

Lemma growing_snoc (texts : list string) (final : string) :
  growing texts -> Forall (fun s => prefix_of s final) texts ->
  growing (texts ++ [final]).
Proof.
  induction texts as [|s rest IH]; intros G F.
  - simpl. auto.
  - inversion F as [|? ? Hs Hrest]; subst.
    destruct G as [G1 G2]. simpl app. simpl growing.
    split; [|now apply IH].
    destruct rest as [|s' rest']; simpl.
    + split; [assumption|now apply prefix_of_length].
    + exact G1.
Qed.

Lemma calls_log_texts (js : Builtins) (this : GeminiResponseHandler)
  (chunk : GenerateContentResponse) :
  update_texts (calls_log js this chunk) = [].
Proof.
  unfold calls_log. destruct (functionCalls chunk) as [[|call calls]|];
    try reflexivity.
  simpl. generalize (match is_web_search call with
                     | Some a => [(call, a)]
                     | None => []
                     end ++ dispatched calls).
  intros l. induction l as [|ca l IH]; simpl; [reflexivity|exact IH].
Qed.

Lemma arrive_texts (js : Builtins) (a : Arrival)
  (this : GeminiResponseHandler) :
  let after := fst (arrive js a this) in
  after.(message_text) = (this.(message_text) ++ fragment a)%string
  /\ (update_texts (snd (arrive js a this)) = []
      \/ update_texts (snd (arrive js a this)) = [after.(message_text)]).
Proof.
  destruct a as [chunk now|event]; simpl.
  - rewrite update_texts_app, calls_log_texts. simpl app.
    unfold text_step. destruct (text chunk) as [s|].
    + destruct (s =? "")%string eqn:E.
      * apply String.eqb_eq in E. subst s. simpl.
        rewrite append_nil_r. auto.
      * destruct (now - last_update_time this >? 1000); simpl; auto.
    + simpl. rewrite append_nil_r. auto.
  - rewrite append_nil_r. destruct (listening this && _); simpl; auto.
Qed.

Lemma drain_texts (js : Builtins) (arrivals : list Arrival)
  (this : GeminiResponseHandler) :
  let after := fst (drain js arrivals this) in
  let texts := update_texts (snd (drain js arrivals this)) in
  after.(message_text)
  = (this.(message_text) ++ concatenation arrivals)%string
  /\ growing texts
  /\ Forall (fun s => prefix_of this.(message_text) s
                      /\ prefix_of s after.(message_text)) texts.
Proof.
  revert this. induction arrivals as [|a rest IH]; intros this.
  - simpl. rewrite append_nil_r. auto.
  - simpl drain. simpl fst. simpl snd. cbv zeta.
    destruct (arrive_texts js a this) as [Ht Hu]. cbv zeta in Ht, Hu.
    destruct (IH (fst (arrive js a this))) as (It & Ig & If).
    cbv zeta in It, Ig, If.
    set (mid := fst (arrive js a this)) in *.
    set (after := fst (drain js rest mid)) in *.
    assert (P1 : prefix_of (message_text this) (message_text mid))
      by (rewrite Ht; apply prefix_of_append).
    assert (P2 : prefix_of (message_text mid) (message_text after))
      by (rewrite It; apply prefix_of_append).
    split; [|split].
    + rewrite It, Ht. simpl concatenation. apply append_assoc.
    + rewrite update_texts_app. destruct Hu as [-> | ->]; simpl app.
      * exact Ig.
      * apply growing_cons; [|exact Ig].
        eapply Forall_impl; [|exact If]. now intros s [H _].
    + rewrite update_texts_app. apply Forall_app. split.
      * destruct Hu as [-> | ->]; constructor; [|constructor].
        split; assumption.
      * eapply Forall_impl; [|exact If]. intros s [H1 H2].
        split; [|exact H2]. eapply prefix_of_trans; eassumption.
Qed.

(** C2.  The stream is exhausted without a fault.  The texts of the message
    updates in the log of [run], in the order they were sent, grow: each
    one extends the one sent before it and is at least as long.  The last
    of them is the concatenation, in stream order, of the text fragments of
    all chunks; it comes from the update sent after the loop, which no
    other text update follows. *)
Theorem text_updates_grow (js : Builtins)
  (provider : string -> Outcome string) (m : MessageResponse)
  (arrived : list Arrival) :
  let finished :=
    run js provider {| arrivals := arrived; ending := Completes |}
      (new_handler m) in
  let texts := update_texts (log_of finished) in
  growing texts
  /\ last texts ""%string = concatenation arrived
  /\ exists earlier later,
       log_of finished
       = earlier
         ++ PartialUpdateMessage m.(id) (concatenation arrived) None :: later
       /\ update_texts later = [].
Proof.
  intros finished texts. subst texts finished. rewrite run_eq.
  unfold log_of. cbv zeta. simpl snd. simpl arrivals. simpl ending.
  set (start := new_handler m).
  destruct (drain_texts js arrived start) as (Ht & Hg & Hf).
  cbv zeta in Ht, Hg, Hf. simpl (message_text start) in Ht.
  simpl String.append in Ht.
  set (after := fst (drain js arrived start)) in *.
  set (l := snd (drain js arrived start)) in *.
  assert (E : update_texts
                (l ++ PartialUpdateMessage (id m) (message_text after) None
                   :: SendEvent (ai_indicator_clear (cid m) (id m))
                   :: (if is_done after then [] else [Off; OnDispose]))
              = update_texts l ++ [message_text after]).
  { rewrite update_texts_app. f_equal. simpl.
    now destruct (is_done after). }
  rewrite E. split; [|split].
  - apply growing_snoc; [exact Hg|].
    eapply Forall_impl; [|exact Hf]. now intros s [_ H].
  - rewrite last_last. exact Ht.
  - exists l. eexists. rewrite Ht. split; [reflexivity|].
    simpl. now destruct (is_done after).
Qed.

(** ** Throttling *)

Lemma last_cons (A : Type) (a d : A) (l : list A) :
  last (a :: l) d = last l a.
Proof.
  revert a d. induction l as [|b l IH]; intros a d; [reflexivity|].
  change (last (a :: b :: l) d) with (last (b :: l) d).
  now rewrite !IH.
Qed.

Lemma flush_times_app (l l' : list Effect) :
  is_text_update (hd Off l') = false ->
  flush_times (l ++ l') = flush_times l ++ flush_times l'.
Proof.
  intros H. induction l as [|e l IH]; [reflexivity|].
  destruct e; simpl; try exact IH.
  destruct l as [|e2 l2].
  - simpl. destruct l' as [|e' l'']; [reflexivity|].
    destruct e'; try reflexivity. discriminate H.
  - simpl app in *. destruct e2; try exact IH.
    simpl. f_equal. exact IH.
Qed.

Lemma calls_log_flush (js : Builtins) (this : GeminiResponseHandler)
  (chunk : GenerateContentResponse) :
  flush_times (calls_log js this chunk) = [].
Proof.
  unfold calls_log. destruct (functionCalls chunk) as [[|call calls]|];
    try reflexivity.
  simpl. generalize (match is_web_search call with
                     | Some a => [(call, a)]
                     | None => []
                     end ++ dispatched calls).
  intros l. induction l as [|ca l IH]; simpl; [reflexivity|exact IH].
Qed.

Lemma arrive_head (js : Builtins) (a : Arrival)
  (this : GeminiResponseHandler) (l : list Effect) :
  is_text_update (hd Off l) = false ->
  is_text_update (hd Off (snd (arrive js a this) ++ l)) = false.
Proof.
  intros H. destruct a as [chunk now|event]; simpl.
  - unfold calls_log, text_step.
    destruct (functionCalls chunk) as [[|call calls]|]; try reflexivity;
      destruct (text chunk) as [s|]; try exact H;
      (destruct (s =? "")%string; [exact H|]);
      destruct (now - last_update_time this >? 1000); reflexivity.
  - destruct (listening this && _); [reflexivity|exact H].
Qed.

Lemma drain_head (js : Builtins) (arrivals : list Arrival)
  (this : GeminiResponseHandler) :
  is_text_update (hd Off (snd (drain js arrivals this))) = false.
Proof.
  revert this. induction arrivals as [|a rest IH]; intros this;
    [reflexivity|].
  simpl drain. simpl snd. apply arrive_head, IH.
Qed.

(** One arrival either sends no throttled update and keeps
    [last_update_time], or sends one at a reading more than 1000 later and
    records that reading. *)
Lemma arrive_flush (js : Builtins) (a : Arrival)
  (this : GeminiResponseHandler) :
  let after := fst (arrive js a this) in
  let l := snd (arrive js a this) in
  (flush_times l = [] /\ count is_text_update l = 0%nat
   /\ after.(last_update_time) = this.(last_update_time))
  \/ (exists now, flush_times l = [now] /\ count is_text_update l = 1%nat
      /\ after.(last_update_time) = now
      /\ 1000 < now - this.(last_update_time)).
Proof.
  destruct a as [chunk now|event]; simpl.
  - rewrite flush_times_app, calls_log_flush, count_app, calls_log_count;
      try (intros; reflexivity).
    + unfold text_step. destruct (text chunk) as [s|]; [|left; auto].
      destruct (s =? "")%string; [left; auto|].
      destruct (now - last_update_time this >? 1000) eqn:G.
      * right. exists now. repeat split. apply Z.gtb_lt in G. lia.
      * left. auto.
    + unfold text_step. destruct (text chunk) as [s|]; [|reflexivity].
      destruct (s =? "")%string; [reflexivity|].
      destruct (now - last_update_time this >? 1000); reflexivity.
  - destruct (listening this && _); left; auto.
Qed.

Lemma drain_flush (js : Builtins) (arrivals : list Arrival)
  (this : GeminiResponseHandler) :
  let after := fst (drain js arrivals this) in
  let times := flush_times (snd (drain js arrivals this)) in
  spaced 1001 (this.(last_update_time) :: times)
  /\ after.(last_update_time) = last times this.(last_update_time)
  /\ List.length times = count is_text_update (snd (drain js arrivals this)).
Proof.
  revert this. induction arrivals as [|a rest IH]; intros this.
  - simpl. auto.
  - simpl drain. simpl fst. simpl snd. cbv zeta.
    rewrite flush_times_app by apply drain_head. rewrite count_app.
    destruct (IH (fst (arrive js a this))) as (Is & Il & Ic).
    cbv zeta in Is, Il, Ic.
    destruct (arrive_flush js a this) as [(Ef & Ec & Et)|(now & Ef & Ec & Et & G)];
      cbv zeta in Ef, Ec, Et; rewrite Ef, Ec.
    + rewrite Et in Is, Il. simpl app. auto.
    + rewrite Et in Is, Il. simpl app. split; [|split].
      * split; [lia|exact Is].
      * rewrite last_cons. exact Il.
      * simpl. now rewrite Ic.
Qed.

Lemma spaced_weaken (gap gap' : Z) (times : list Z) :
  gap' <= gap -> spaced gap times -> spaced gap' times.
Proof.
  intros H. induction times as [|t rest IH]; [trivial|].
  intros [S1 S2]. split; [|now apply IH].
  destruct rest as [|t' rest']; [trivial|lia].
Qed.

(** C5.  In the log of the loop of [run] (which holds every text update but
    the final one), the clock readings at which text updates were sent are
    at least 1000 apart from one to the next; every text update of the loop
    is among them, and [last_update_time] is the reading of the latest one
    (0 before the first).  For a single chunk: a text update is sent only
    if at least 1000 have passed since [last_update_time]; when less than
    1000 have passed none is sent, and in either case the chunk's text is
    appended to [message_text], the text that every later update and the
    final update send in full. *)
Theorem throttled_updates_are_spaced (js : Builtins)
  (provider : string -> Outcome string) (m : MessageResponse)
  (arrived : list Arrival) (how : Ending) :
  let looped := for_await js provider arrived how (new_handler m) in
  let times := flush_times (log_of looped) in
  spaced 1000 times
  /\ List.length times = count is_text_update (log_of looped)
  /\ last_update_time (handler_of looped) = last times 0
  /\ (exists rest,
        log_of (run js provider {| arrivals := arrived; ending := how |}
                  (new_handler m))
        = log_of looped ++ rest)
  /\ forall (this : GeminiResponseHandler) (chunk : GenerateContentResponse)
       (now : Z),
       let stepped := on_chunk js provider chunk now this in
       (count is_text_update (log_of stepped) <> 0%nat ->
        1000 <= now - last_update_time this)
       /\ (now - last_update_time this < 1000 ->
           count is_text_update (log_of stepped) = 0%nat)
       /\ message_text (handler_of stepped)
          = (message_text this ++ fragment (Yields chunk now))%string.
Proof.
  intros looped times. subst times looped. rewrite for_await_eq, run_eq.
  unfold log_of, handler_of. cbv zeta. simpl fst. simpl snd.
  destruct (drain_flush js arrived (new_handler m)) as (Hs & Hl & Hc).
  cbv zeta in Hs, Hl, Hc. simpl (last_update_time (new_handler m)) in *.
  split; [|split; [|split; [|split]]].
  - destruct Hs as [_ Hs]. revert Hs. apply spaced_weaken. lia.
  - exact Hc.
  - exact Hl.
  - eexists. reflexivity.
  - intros this chunk now. rewrite on_chunk_eq. simpl fst. simpl snd.
    destruct (arrive_flush js (Yields chunk now) this)
      as [(_ & Ec & _)|(t & Ef & Ec & Et & G)];
      cbv zeta in *; simpl arrive in *; simpl fst in *; simpl snd in *.
    + rewrite Ec. split; [intros N; now elim N|]. split; [reflexivity|].
      apply (arrive_texts js (Yields chunk now) this).
    + assert (t = now).
      { clear - Et Ef. unfold text_step in *.
        destruct (text chunk) as [s|]; simpl in *.
        - destruct (s =? "")%string; simpl in *.
          + rewrite flush_times_app, calls_log_flush in Ef by reflexivity.
            discriminate Ef.
          + destruct (now - last_update_time this >? 1000); simpl in *.
            * now symmetry.
            * rewrite flush_times_app, calls_log_flush in Ef by reflexivity.
              discriminate Ef.
        - rewrite flush_times_app, calls_log_flush in Ef by reflexivity.
          discriminate Ef. }
      subst t. split; [intros _; lia|]. split; [intros L; lia|].
      apply (arrive_texts js (Yields chunk now) this).
Qed.

(** ** Tool calls *)

Lemma is_web_search_spec (call : FunctionCall) (a : jsval) :
  is_web_search call = Some a
  <-> call.(name) = Some "web_search"%string /\ call.(args) = Some a
      /\ truthy a = true.
Proof.
  unfold is_web_search. destruct (name call) as [n|], (args call) as [b|];
    try (split; [discriminate|intros (H & _); discriminate H
                              || (intros (_ & H & _); discriminate H)]).
  - destruct (String.eqb_spec n "web_search") as [->|N]; simpl.
    + destruct (truthy b) eqn:T.
      * split; [intros H; injection H as ->; auto|].
        intros (_ & H & _). exact H.
      * split; [discriminate|]. intros (_ & H & T').
        injection H as ->. rewrite T in T'. discriminate T'.
    + split; [discriminate|]. intros (H & _). injection H as ->. now elim N.
  - split; [discriminate|]. intros (_ & H & _). discriminate H.
Qed.

Lemma result_of_call (js : Builtins) (provider : string -> Outcome string)
  (call : FunctionCall) (a : jsval) :
  functionCall (result_of js provider call a) = call.
Proof.
  unfold result_of. destruct (provider _) as [s|e]; [|reflexivity].
  destruct (JSON_parse js s); reflexivity.
Qed.

Lemma dispatched_calls (functionCalls : list FunctionCall) :
  map fst (dispatched functionCalls)
  = filter (fun call => match is_web_search call with
                        | Some _ => true
                        | None => false
                        end) functionCalls.
Proof.
  induction functionCalls as [|call rest IH]; [reflexivity|].
  unfold dispatched in *. simpl.
  destruct (is_web_search call); simpl; now rewrite IH.
Qed.

Lemma dispatched_none (functionCalls : list FunctionCall) :
  Forall (fun call => is_web_search call = None) functionCalls ->
  dispatched functionCalls = [].
Proof.
  induction 1 as [|call rest H _ IH]; [reflexivity|].
  unfold dispatched in *. simpl. now rewrite H, IH.
Qed.

Lemma count_searches (js : Builtins) (p : Effect -> bool)
  (l : list (FunctionCall * jsval)) :
  (forall q, p (PerformWebSearch q) = false) ->
  count p (map (fun ca => PerformWebSearch (queryForSearch js (snd ca))) l)
  = 0%nat.
Proof.
  intros Hq. unfold count.
  induction l as [|ca l IH]; simpl; [reflexivity|now rewrite Hq].
Qed.

(** C4, as the code has it.  The dispatcher returns normally and leaves the
    handler as it was.  Its output list pairs, in order, exactly the calls
    that are named "web_search" and carry a truthy payload, each with one
    result: the parsed answer of the provider, or the error marker.  A call
    with another name, or without such a payload, has no entry. *)
Theorem one_result_per_dispatched_call (js : Builtins)
  (provider : string -> Outcome string) (calls : list FunctionCall)
  (cid : option string) (message_id : string) (this : GeminiResponseHandler) :
  exists outs,
    outcome_of (handleFunctionCalls js provider calls cid message_id this)
    = Returned outs
    /\ handler_of (handleFunctionCalls js provider calls cid message_id this)
       = this
    /\ map functionCall outs
       = filter (fun call => match is_web_search call with
                             | Some _ => true
                             | None => false
                             end) calls
    /\ Forall (fun o =>
                 exists payload,
                   o.(functionCall).(name) = Some "web_search"%string
                   /\ o.(functionCall).(args) = Some payload
                   /\ truthy payload = true
                   /\ o = result_of js provider o.(functionCall) payload) outs.
Proof.
  rewrite handleFunctionCalls_eq. eexists. split; [reflexivity|].
  split; [reflexivity|]. split.
  - rewrite map_map. rewrite <- dispatched_calls.
    apply map_ext. intros [call a]. apply result_of_call.
  - apply Forall_forall. intros o Ho. apply in_map_iff in Ho.
    destruct Ho as ([call a] & <- & Hin). simpl fst. simpl snd.
    rewrite result_of_call. exists a.
    assert (W : is_web_search call = Some a).
    { clear - Hin. unfold dispatched in Hin. apply in_flat_map in Hin.
      destruct Hin as (c & _ & Hc). destruct (is_web_search c) eqn:E.
      - destruct Hc as [Hc|[]]. injection Hc as -> ->. exact E.
      - destruct Hc. }
    apply is_web_search_spec in W. destruct W as (N & A & T). auto.
Qed.

(** C4, as stated, fails: a call to a tool other than "web_search", and a
    "web_search" call without a payload, get no result at all. *)
Lemma unknown_tool_call_gets_no_result :
  outcome_of
    (handleFunctionCalls Sample.js Sample.answering
       [ {| name := Some "get_weather"%string;
            args := Some (JObj [("city"%string, JStr "Paris")]) |} ]
       (Some "messaging:c1"%string) "m1" (new_handler Sample.msg))
  = Returned []
  /\ outcome_of
       (handleFunctionCalls Sample.js Sample.answering
          [ {| name := Some "web_search"%string; args := None |} ]
          (Some "messaging:c1"%string) "m1" (new_handler Sample.msg))
     = Returned [].
Proof. split; reflexivity. Qed.

(** C10.  When a chunk carries at least one function call, the log of its
    step starts with the EXTERNAL_SOURCES status for the handler's message,
    and holds no second one.  This is so even when none of the calls is a
    "web_search" call with a payload: then no web search is made and the
    dispatcher returns the empty list. *)
Theorem external_sources_status_once (js : Builtins)
  (provider : string -> Outcome string) (chunk : GenerateContentResponse)
  (now : Z) (this : GeminiResponseHandler) (call : FunctionCall)
  (calls : list FunctionCall) :
  chunk.(functionCalls) = Some (call :: calls) ->
  let stepped := on_chunk js provider chunk now this in
  let status :=
    SendEvent (ai_indicator_update AI_STATE_EXTERNAL_SOURCES
                 this.(message).(cid) this.(message).(id)) in
  (exists rest,
     log_of stepped = status :: rest
     /\ count is_external_sources rest = 0%nat)
  /\ count is_external_sources (log_of stepped) = 1%nat
  /\ (Forall (fun c => is_web_search c = None) (call :: calls) ->
      count is_web_search_call (log_of stepped) = 0%nat
      /\ handleFunctionCalls js provider (call :: calls)
           this.(message).(cid) this.(message).(id) this
         = (Returned [], this, [status])).
Proof.
  intros H stepped status. subst stepped status. rewrite on_chunk_eq.
  unfold log_of. simpl snd. unfold calls_log. rewrite H.
  assert (Z0 : count is_external_sources
                 (map (fun ca => PerformWebSearch (queryForSearch js (snd ca)))
                      (dispatched (call :: calls))
                  ++ snd (text_step this chunk now)) = 0%nat).
  { rewrite count_app, count_searches, text_step_count;
      intros; reflexivity. }
  split; [|split].
  - eexists. split; [reflexivity|exact Z0].
  - change (S (count is_external_sources
                 (map (fun ca => PerformWebSearch (queryForSearch js (snd ca)))
                      (dispatched (call :: calls))
                  ++ snd (text_step this chunk now))) = 1%nat).
    now rewrite Z0.
  - intros F. rewrite handleFunctionCalls_eq, (dispatched_none F).
    split; [|reflexivity].
    simpl. unfold count. simpl. fold (count is_web_search_call
                                         (snd (text_step this chunk now))).
    apply text_step_count; intros; reflexivity.
Qed.

Lemma external_sources_status_once_witness :
  let chunk :=
    Sample.calls_chunk
      [ {| name := Some "get_weather"%string;
           args := Some (JObj [("city"%string, JStr "Paris")]) |} ] in
  let this := new_handler Sample.msg in
  count is_external_sources
    (log_of (on_chunk Sample.js Sample.answering chunk 5000 this)) = 1%nat
  /\ count is_web_search_call
       (log_of (on_chunk Sample.js Sample.answering chunk 5000 this)) = 0%nat.
Proof.
  intros chunk this.
  destruct (external_sources_status_once Sample.js Sample.answering
              chunk 5000 this (call := {| name := Some "get_weather"%string;
                                          args := Some (JObj [("city"%string, JStr "Paris")]) |})
              (calls := []) eq_refl)
    as (_ & H1 & H2).
  split; [exact H1|].
  apply H2. repeat constructor.
Defined.

(** ** The query of a web search *)

Lemma asked_eq (js : Builtins) (provider : string -> Outcome string)
  (call : FunctionCall) (cid : option string) (message_id : string)
  (this : GeminiResponseHandler) :
  queries (log_of (handleFunctionCalls js provider [call] cid message_id this))
  = match is_web_search call with
    | Some a => [queryForSearch js a]
    | None => []
    end.
Proof.
  rewrite handleFunctionCalls_eq. unfold log_of, dispatched. simpl.
  destruct (is_web_search call); reflexivity.
Qed.

(** C6, as the code has it.  A "web_search" call with payload [payload]
    is dispatched alone; [ask payload] is the list of queries the provider
    is called with.  If the payload is an object whose [query] field is a
    string, the provider is called once, with that string.  If the field
    holds another value that is not null, the provider is called once with
    the string form of that value.  If the payload is an object without a
    [query] field, or an array, the provider is called once with the JSON
    text of the payload.  If the payload is a bare primitive, the provider
    is called once with the string form of the payload when the payload is
    truthy, and is not called at all when it is falsy ([0], [NaN], the
    empty string, [false], [null]); nor is it called when the call carries
    no payload.  In particular [{query: "cats"}] gives the query "cats" and
    [{q: "cats"}] the JSON text of [{q: "cats"}]. *)
Theorem web_search_query (js : Builtins)
  (provider : string -> Outcome string) (payload : jsval)
  (cid : option string) (message_id : string) (this : GeminiResponseHandler) :
  let ask := fun a =>
    queries (log_of (handleFunctionCalls js provider
                       [ {| name := Some "web_search"%string; args := Some a |} ]
                       cid message_id this)) in
  (forall fields s,
     payload = JObj fields -> lookup_field "query" fields = Some (JStr s) ->
     ask payload = [s])
  /\ (forall fields v,
        payload = JObj fields -> lookup_field "query" fields = Some v ->
        v <> JNull -> (forall s, v <> JStr s) ->
        ask payload = [js.(ToString) v])
  /\ (forall fields,
        payload = JObj fields -> lookup_field "query" fields = None ->
        ask payload = [js.(JSON_stringify) payload])
  /\ (forall elements,
        payload = JArr elements -> ask payload = [js.(JSON_stringify) payload])
  /\ (is_object payload = false ->
      ask payload
      = if truthy payload then [js.(ToString) payload] else [])
  /\ queries (log_of (handleFunctionCalls js provider
                        [ {| name := Some "web_search"%string; args := None |} ]
                        cid message_id this)) = []
  /\ ask (JObj [("query"%string, JStr "cats")]) = ["cats"%string]
  /\ ask (JObj [("q"%string, JStr "cats")])
     = [js.(JSON_stringify) (JObj [("q"%string, JStr "cats")])].
Proof.
  intros ask. subst ask. cbv beta.
  split; [|split; [|split; [|split; [|split; [|split; [|split]]]]]].
  - intros fields s -> L. rewrite asked_eq. simpl.
    unfold queryForSearch. simpl. now rewrite L.
  - intros fields v -> L N S. rewrite asked_eq. simpl.
    unfold queryForSearch. simpl. rewrite L.
    destruct v; try reflexivity; [now elim N|now elim (S s)].
  - intros fields -> L. rewrite asked_eq. simpl.
    unfold queryForSearch. simpl. now rewrite L.
  - intros elements ->. rewrite asked_eq. reflexivity.
  - intros O. rewrite asked_eq. unfold is_web_search. simpl.
    destruct (truthy payload); [|reflexivity].
    unfold queryForSearch. now rewrite O.
  - now rewrite asked_eq.
  - now rewrite asked_eq.
  - now rewrite asked_eq.
Qed.

(** C6, as stated, fails: a "web_search" call whose payload is the empty
    string, [false] or [0] (bare primitives) is skipped by the test of
    line 84, so the provider is not called with the string form of the
    payload: it is not called at all. *)
Lemma falsy_payload_is_not_searched :
  let ask := fun a =>
    queries (log_of (handleFunctionCalls Sample.js Sample.answering
                       [ {| name := Some "web_search"%string; args := Some a |} ]
                       (Some "messaging:c1"%string) "m1"
                       (new_handler Sample.msg))) in
  ask (JStr "") = []
  /\ ask (JStr "") <> [Sample.js.(ToString) (JStr "")]
  /\ ask (JBool false) = []
  /\ ask (JNum 0%float) = [].
Proof. repeat split; try reflexivity. discriminate. Qed.

(** ** Faults of the provider *)

Lemma run_any_provider (js : Builtins)
  (provider provider' : string -> Outcome string)
  (contentStream : ContentStream) (this : GeminiResponseHandler) :
  run js provider contentStream this = run js provider' contentStream this.
Proof. now rewrite !run_eq. Qed.

(** C7.  [call] is a dispatched "web_search" call among [calls], and the
    provider throws on its query.  The dispatcher still returns normally;
    its output list holds the error marker for the call, and whatever it
    holds for the call is the error marker.  Nothing reaches [run]: the
    step of the chunk returns normally, with the chunk's text appended as
    usual, and [run] over any stream does exactly what it does with a
    provider that never throws: same handler, same log. *)
Theorem provider_fault_is_contained (js : Builtins)
  (provider : string -> Outcome string) (calls : list FunctionCall)
  (cid : option string) (message_id : string) (this : GeminiResponseHandler)
  (call : FunctionCall) (payload : jsval) (error : Error) :
  In call calls ->
  is_web_search call = Some payload ->
  provider (queryForSearch js payload) = Thrown error ->
  (exists outs,
     outcome_of (handleFunctionCalls js provider calls cid message_id this)
     = Returned outs
     /\ In {| functionCall := call; output := failed_to_call_tool |} outs
     /\ forall o, In o outs -> o.(functionCall) = call ->
                  o.(output) = failed_to_call_tool)
  /\ (forall chunk now h,
        outcome_of (on_chunk js provider chunk now h) = Returned tt
        /\ message_text (handler_of (on_chunk js provider chunk now h))
           = (message_text h ++ fragment (Yields chunk now))%string)
  /\ (forall provider' contentStream h,
        run js provider contentStream h = run js provider' contentStream h).
Proof.
  intros Hin Hw Hp. split; [|split].
  - rewrite handleFunctionCalls_eq. eexists. split; [reflexivity|].
    assert (R : result_of js provider call payload
                = {| functionCall := call; output := failed_to_call_tool |})
      by (unfold result_of; now rewrite Hp).
    split.
    + rewrite <- R. apply in_map_iff. exists (call, payload). split; [reflexivity|].
      unfold dispatched. apply in_flat_map. exists call. split; [exact Hin|].
      rewrite Hw. now left.
    + intros o Ho Hc. apply in_map_iff in Ho.
      destruct Ho as ([c a] & <- & Hd). simpl fst in *. simpl snd in *.
      rewrite result_of_call in Hc. subst c.
      assert (a = payload).
      { unfold dispatched in Hd. apply in_flat_map in Hd.
        destruct Hd as (c & _ & Hc). destruct (is_web_search c) eqn:E.
        - destruct Hc as [Hc|[]]. injection Hc as -> ->.
          rewrite Hw in E. now injection E.
        - destruct Hc. }
      subst a. now rewrite R.
  - intros chunk now h. rewrite on_chunk_eq. split; [reflexivity|].
    apply (arrive_texts js (Yields chunk now) h).
  - intros provider' contentStream h. apply run_any_provider.
Qed.

Lemma provider_fault_is_contained_witness :
  let call := Sample.search (JObj [("query"%string, JStr "cats")]) in
  (exists outs,
     outcome_of (handleFunctionCalls Sample.js Sample.failing [call]
                   (Some "messaging:c1"%string) "m1" (new_handler Sample.msg))
     = Returned outs
     /\ In {| functionCall := call; output := failed_to_call_tool |} outs
     /\ forall o, In o outs -> o.(functionCall) = call ->
                  o.(output) = failed_to_call_tool)
  /\ (forall chunk now h,
        outcome_of (on_chunk Sample.js Sample.failing chunk now h) = Returned tt
        /\ message_text (handler_of (on_chunk Sample.js Sample.failing chunk now h))
           = (message_text h ++ fragment (Yields chunk now))%string)
  /\ (forall provider' contentStream h,
        run Sample.js Sample.failing contentStream h
        = run Sample.js provider' contentStream h).
Proof.
  intros call.
  apply (@provider_fault_is_contained Sample.js Sample.failing [call]
           (Some "messaging:c1"%string) "m1" (new_handler Sample.msg)
           call (JObj [("query"%string, JStr "cats")])
           Sample.network_error).
  - now left.
  - reflexivity.
  - reflexivity.
Defined.

(** The repository's own provider never throws: every fault of the network
    is caught inside [performWebSearch] and comes back as a JSON text. *)
Lemma performWebSearch_returns (js : Builtins)
  (TAVILY_API_KEY : option string)
  (fetch : string -> string -> string -> Outcome Response) (query : string) :
  exists searchResult,
    performWebSearch js TAVILY_API_KEY fetch query = Returned searchResult.
Proof.
  unfold performWebSearch.
  destruct TAVILY_API_KEY as [[|c key]|]; try (eexists; reflexivity).
  destruct (fetch _ _ _) as [r|e]; [|eexists; reflexivity].
  destruct (negb (ok r)).
  - destruct (response_text r); eexists; reflexivity.
  - destruct (response_json r); eexists; reflexivity.
Qed.

(** The first scenario of the specification: text, text, a web search,
    text. *)
Example hello_done :
  run Sample.js Sample.answering
    {| arrivals :=
         [Yields (Sample.text_chunk "Hel") 5000;
          Yields (Sample.text_chunk "lo ") 5100;
          Yields (Sample.calls_chunk
                    [Sample.search (JObj [("query"%string, JStr "cats")])]) 5200;
          Yields (Sample.text_chunk "done") 7000];
       ending := Completes |}
    (new_handler Sample.msg)
  = (Returned tt,
     {| message_text := "Hello done";
        chunk_counter := 3;
        run_id := "";
        is_done := true;
        last_update_time := 7000;
        message := Sample.msg;
        listening := false |},
     [DateNow 5000;
      PartialUpdateMessage "m1" "Hel" None;
      DateNow 5100;
      SendEvent (ai_indicator_update AI_STATE_EXTERNAL_SOURCES
                   (Some "messaging:c1"%string) "m1");
      PerformWebSearch "cats";
      DateNow 7000;
      PartialUpdateMessage "m1" "Hello done" None;
      PartialUpdateMessage "m1" "Hello done" None;
      SendEvent (ai_indicator_clear (Some "messaging:c1"%string) "m1");
      Off;
      OnDispose]).
Proof. vm_compute. reflexivity. Qed.

(** The second example of the argument fallback, with the sample
    serializer: the query is the JSON text of [{q: "cats"}]. *)
Example args_without_query :
  queries
    (log_of (handleFunctionCalls Sample.js Sample.answering
               [Sample.search (JObj [("q"%string, JStr "cats")])]
               (Some "messaging:c1"%string) "m1" (new_handler Sample.msg)))
  = [("{" ++ Sample.quote "q" ++ ":" ++ Sample.quote "cats" ++ "}")%string].
Proof. vm_compute. reflexivity. Qed.

(** ** Stop events and the rest of the run *)

Lemma text_step_agrees (this other : GeminiResponseHandler)
  (chunk : GenerateContentResponse) (now : Z) :
  message_text this = message_text other ->
  last_update_time this = last_update_time other ->
  message this = message other ->
  message_text (fst (text_step this chunk now))
  = message_text (fst (text_step other chunk now))
  /\ last_update_time (fst (text_step this chunk now))
     = last_update_time (fst (text_step other chunk now))
  /\ snd (text_step this chunk now) = snd (text_step other chunk now).
Proof.
  intros Ht Hl Hm. unfold text_step. rewrite Ht, Hl, Hm.
  destruct (text chunk) as [s|]; [|auto].
  destruct (s =? "")%string; [auto|].
  destruct (now - last_update_time other >? 1000); simpl; auto.
Qed.

Lemma drain_cons (js : Builtins) (a : Arrival) (rest : list Arrival)
  (this : GeminiResponseHandler) :
  drain js (a :: rest) this
  = (fst (drain js rest (fst (arrive js a this))),
     snd (arrive js a this) ++ snd (drain js rest (fst (arrive js a this)))).
Proof. reflexivity. Qed.

Lemma drain_without_stops (js : Builtins) (arrivals : list Arrival)
  (this other : GeminiResponseHandler) :
  message_text this = message_text other ->
  last_update_time this = last_update_time other ->
  message this = message other ->
  let stopped := drain js arrivals this in
  let plain := drain js (without_stops arrivals) other in
  message_text (fst stopped) = message_text (fst plain)
  /\ update_texts (snd stopped) = update_texts (snd plain)
  /\ queries (snd stopped) = queries (snd plain).
Proof.
  revert this other. induction arrivals as [|a rest IH];
    intros this other Ht Hl Hm; cbv zeta.
  - simpl. auto.
  - destruct a as [chunk now|event].
    + simpl without_stops. simpl drain. simpl fst. simpl snd.
      destruct (text_step_agrees this other chunk now Ht Hl Hm)
        as (Et & El & Es).
      destruct (text_step_message this chunk now) as (Em1 & _).
      destruct (text_step_message other chunk now) as (Em2 & _).
      destruct (IH (fst (text_step this chunk now))
                   (fst (text_step other chunk now)) Et El)
        as (It & Iu & Iq); [now rewrite Em1, Em2|].
      cbv zeta in It, Iu, Iq. fold (without_stops rest).
      split; [exact It|].
      rewrite !update_texts_app, !queries_app, Iu, Iq, Es.
      unfold calls_log. now rewrite Hm.
    + change (without_stops (StopSignal event :: rest))
        with (without_stops rest).
      rewrite drain_cons. cbn [fst snd].
      assert (E : exists l,
                 snd (arrive js (StopSignal event) this) = l
                 /\ update_texts l = [] /\ queries l = []
                 /\ message_text (fst (arrive js (StopSignal event) this))
                    = message_text this
                 /\ last_update_time (fst (arrive js (StopSignal event) this))
                    = last_update_time this).
      { simpl. destruct (listening this && _); eexists; repeat split. }
      destruct E as (l & El & Eu & Eq & Et & Elu).
      destruct (IH (fst (arrive js (StopSignal event) this)) other)
        as (It & Iu & Iq).
      * now rewrite Et.
      * now rewrite Elu.
      * now rewrite arrive_message.
      * cbv zeta in It, Iu, Iq. split; [exact It|].
        rewrite update_texts_app, queries_app, El, Eu, Eq. simpl. auto.
Qed.

(** X2.  Stop events change nothing in what a completed run writes and
    searches: the texts of its message updates, the queries of its web
    searches and the text it ends with are those of the same stream
    without the stop events. *)
Theorem stop_events_do_not_change_the_text (js : Builtins)
  (provider : string -> Outcome string) (m : MessageResponse)
  (arrived : list Arrival) :
  let stopped :=
    run js provider {| arrivals := arrived; ending := Completes |}
      (new_handler m) in
  let plain :=
    run js provider {| arrivals := without_stops arrived; ending := Completes |}
      (new_handler m) in
  update_texts (log_of stopped) = update_texts (log_of plain)
  /\ queries (log_of stopped) = queries (log_of plain)
  /\ message_text (handler_of stopped) = message_text (handler_of plain).
Proof.
  cbv zeta. rewrite !run_eq. unfold log_of, handler_of. cbv zeta.
  simpl fst. simpl snd. cbn [arrivals ending].
  destruct (drain_without_stops js arrived (new_handler m) (new_handler m)
              eq_refl eq_refl eq_refl) as (Ht & Hu & Hq).
  cbv zeta in Ht, Hu, Hq.
  set (a1 := fst (drain js arrived (new_handler m))) in *.
  set (a2 := fst (drain js (without_stops arrived) (new_handler m))) in *.
  rewrite !update_texts_app, !queries_app, Hu, Hq, Ht.
  split; [|split].
  - f_equal. simpl. now destruct (is_done a1), (is_done a2).
  - f_equal. simpl. now destruct (is_done a1), (is_done a2).
  - destruct (is_done a1), (is_done a2); exact Ht.
Qed.

(** ** Whom a run writes to *)

Lemma drain_addressed (js : Builtins) (arrivals : list Arrival)
  (this : GeminiResponseHandler) :
  Forall (addressed_to this.(message)) (snd (drain js arrivals this)).
Proof.
  revert this. induction arrivals as [|a rest IH]; intros this.
  - constructor.
  - simpl drain. simpl snd. apply Forall_app. split.
    + destruct a as [chunk now|event]; simpl.
      * apply Forall_app. split.
        -- unfold calls_log.
           destruct (functionCalls chunk) as [[|call calls]|];
             try constructor.
           ++ simpl. auto.
           ++ apply Forall_forall. intros e He. apply in_map_iff in He.
              destruct He as (ca & <- & _). exact I.
        -- unfold text_step. destruct (text chunk) as [s|]; [|constructor].
           destruct (s =? "")%string; [constructor|].
           destruct (now - last_update_time this >? 1000); simpl;
             repeat constructor.
      * destruct (listening this && _); simpl; repeat constructor.
    + specialize (IH (fst (arrive js a this))).
      now rewrite arrive_message in IH.
Qed.

Lemma run_writes_to_its_own_message_lemma (js : Builtins)
  (provider : string -> Outcome string) (m : MessageResponse)
  (contentStream : ContentStream) :
  Forall (addressed_to m)
    (log_of (run js provider contentStream (new_handler m))).
Proof.
  rewrite run_eq. unfold log_of. cbv zeta. simpl snd.
  set (start := new_handler m).
  pose proof (drain_message js (arrivals contentStream) start) as Hm.
  pose proof (drain_addressed js (arrivals contentStream) start) as Hd.
  simpl (message start) in *.
  apply Forall_app. split; [exact Hd|].
  destruct (ending contentStream) as [|error].
  - destruct (is_done (fst (drain js (arrivals contentStream) start)));
      simpl; repeat constructor.
  - unfold error_step. rewrite Hm.
    destruct (is_done (fst (drain js (arrivals contentStream) start)));
      simpl; repeat constructor.
Qed.

(** X3.  Whatever the stream yields and however it ends, every message
    update and every status event of a run carries the id (and channel id)
    of the message the handler was created for: a run never writes to
    another message. *)
Theorem run_writes_to_its_own_message (js : Builtins)
  (provider : string -> Outcome string) (m : MessageResponse)
  (contentStream : ContentStream) :
  Forall (addressed_to m)
    (log_of (run js provider contentStream (new_handler m))).
Proof. apply run_writes_to_its_own_message_lemma. Qed.

(** ** The chunk counter *)

Lemma drain_counter (js : Builtins) (arrivals : list Arrival)
  (this : GeminiResponseHandler) :
  chunk_counter (fst (drain js arrivals this))
  = chunk_counter this + text_chunks arrivals.
Proof.
  revert this. induction arrivals as [|a rest IH]; intros this.
  - simpl. lia.
  - rewrite drain_cons. cbn [fst]. rewrite IH.
    destruct a as [chunk now|event]; cbn -[Z.add Z.sub Z.gtb].
    + unfold text_step. destruct (text chunk) as [s|]; [|reflexivity].
      destruct (s =? "")%string; [reflexivity|].
      destruct (now - last_update_time this >? 1000);
        cbn -[Z.add Z.sub Z.gtb]; lia.
    + destruct (listening this && _); reflexivity.
Qed.

(** X4.  When [run] returns, [chunk_counter] is the number of chunks that
    carried a non-empty text: chunks without text, chunks with only tool
    calls and stop events are not counted, and neither ending changes it. *)
Theorem chunk_counter_counts_text_chunks (js : Builtins)
  (provider : string -> Outcome string) (m : MessageResponse)
  (contentStream : ContentStream) :
  chunk_counter
    (handler_of (run js provider contentStream (new_handler m)))
  = text_chunks contentStream.(arrivals).
Proof.
  rewrite run_eq. unfold handler_of. cbv zeta. simpl fst. simpl snd.
  pose proof (drain_counter js (arrivals contentStream) (new_handler m)) as H.
  simpl (chunk_counter (new_handler m)) in H.
  destruct (is_done (fst (drain js (arrivals contentStream) (new_handler m))));
    simpl; rewrite H; lia.
Qed.

(** ** A query that is null *)

(** X5.  A "web_search" call whose payload is an object with a [query]
    field that is null is dispatched like one without the field: the
    provider is called once, with the JSON text of the whole payload. *)
Theorem null_query_falls_back (js : Builtins)
  (provider : string -> Outcome string) (fields : list (string * jsval))
  (cid : option string) (message_id : string) (this : GeminiResponseHandler) :
  lookup_field "query" fields = Some JNull ->
  queries
    (log_of (handleFunctionCalls js provider
               [ {| name := Some "web_search"%string;
                    args := Some (JObj fields) |} ]
               cid message_id this))
  = [js.(JSON_stringify) (JObj fields)].
Proof.
  intros L. rewrite asked_eq. simpl. unfold queryForSearch. simpl.
  now rewrite L.
Qed.

Lemma null_query_falls_back_witness :
  queries
    (log_of (handleFunctionCalls Sample.js Sample.answering
               [ {| name := Some "web_search"%string;
                    args := Some (JObj [("query"%string, JNull);
                                        ("topic"%string, JStr "cats")]) |} ]
               (Some "messaging:c1"%string) "m1" (new_handler Sample.msg)))
  = [Sample.stringify (JObj [("query"%string, JNull);
                             ("topic"%string, JStr "cats")])].
Proof.
  apply (@null_query_falls_back Sample.js Sample.answering
           [("query"%string, JNull); ("topic"%string, JStr "cats")]
           (Some "messaging:c1"%string) "m1" (new_handler Sample.msg)).
  reflexivity.
Defined.

(** ** The repository's own provider under the dispatcher *)

Lemma single_dispatch (js : Builtins) (provider : string -> Outcome string)
  (call : FunctionCall) (payload : jsval) (cid : option string)
  (message_id : string) (this : GeminiResponseHandler) :
  is_web_search call = Some payload ->
  outcome_of (handleFunctionCalls js provider [call] cid message_id this)
  = Returned [result_of js provider call payload].
Proof.
  intros H. rewrite handleFunctionCalls_eq. unfold outcome_of, dispatched.
  simpl. now rewrite H.
Qed.

Lemma result_of_round_trip (js : Builtins)
  (provider : string -> Outcome string) (call : FunctionCall)
  (payload v : jsval) :
  provider (queryForSearch js payload) = Returned (js.(JSON_stringify) v) ->
  js.(JSON_parse) (js.(JSON_stringify) v) = Returned v ->
  result_of js provider call payload
  = {| functionCall := call;
       output := {| output_name := "web_search"; response := v |} |}.
Proof. intros Hp Hr. unfold result_of. now rewrite Hp, Hr. Qed.

(** X7.  The answer of the search service reaches the tool output
    unchanged: when [fetch] resolves with an ok response whose body is the
    JSON value [data], and [JSON.parse] reads back what [JSON.stringify]
    writes for [data], the dispatcher's output for the call is [data]
    under the name "web_search". *)
Theorem search_answer_reaches_the_tool_output (js : Builtins)
  (key : string) (fetch : string -> string -> string -> Outcome Response)
  (call : FunctionCall) (payload : jsval) (answer : Response) (data : jsval)
  (cid : option string) (message_id : string) (this : GeminiResponseHandler) :
  is_web_search call = Some payload ->
  key <> ""%string ->
  fetch "https://api.tavily.com/search"%string ("Bearer " ++ key)%string
        (search_request js (queryForSearch js payload)) = Returned answer ->
  answer.(ok) = true ->
  answer.(response_json) = Returned data ->
  js.(JSON_parse) (js.(JSON_stringify) data) = Returned data ->
  outcome_of (handleFunctionCalls js (performWebSearch js (Some key) fetch)
                [call] cid message_id this)
  = Returned [ {| functionCall := call;
                  output := {| output_name := "web_search";
                               response := data |} |} ].
Proof.
  intros Hw Hk Hf Hok Hj Hr. rewrite (single_dispatch _ _ _ _ _ _ Hw).
  f_equal. f_equal. apply result_of_round_trip; [|exact Hr].
  unfold performWebSearch. destruct key as [|c k]; [now elim Hk|].
  now rewrite Hf, Hok, Hj.
Qed.

Lemma search_answer_reaches_the_tool_output_witness :
  let data := JObj [("answer"%string, JStr "Cats are mammals.")] in
  let call := Sample.search (JObj [("query"%string, JStr "cats")]) in
  outcome_of
    (handleFunctionCalls (Known.js [data])
       (performWebSearch (Known.js [data]) (Some "tvly-key"%string)
          (fun _ _ _ =>
             Returned {| ok := true; status := 200%float;
                         response_text := Returned ""%string;
                         response_json := Returned data |}))
       [call] (Some "messaging:c1"%string) "m1" (new_handler Sample.msg))
  = Returned [ {| functionCall := call;
                  output := {| output_name := "web_search";
                               response := data |} |} ].
Proof.
  intros data call.
  apply (@search_answer_reaches_the_tool_output (Known.js [data])
           "tvly-key"%string _ call (JObj [("query"%string, JStr "cats")])
           {| ok := true; status := 200%float;
              response_text := Returned ""%string;
              response_json := Returned data |} data).
  - reflexivity.
  - discriminate.
  - reflexivity.
  - reflexivity.
  - reflexivity.
  - reflexivity.
Defined.

(** X8.  Without an API key ([TAVILY_API_KEY] unset or empty) a dispatched
    call gets the "not configured" answer as its result, whatever the
    network would have answered: [fetch] has no part in it. *)
Theorem search_without_key (js : Builtins) (key : option string)
  (fetch : string -> string -> string -> Outcome Response)
  (call : FunctionCall) (payload : jsval)
  (cid : option string) (message_id : string) (this : GeminiResponseHandler) :
  is_web_search call = Some payload ->
  key = None \/ key = Some ""%string ->
  js.(JSON_parse) (js.(JSON_stringify) not_configured)
  = Returned not_configured ->
  outcome_of (handleFunctionCalls js (performWebSearch js key fetch)
                [call] cid message_id this)
  = Returned [ {| functionCall := call;
                  output := {| output_name := "web_search";
                               response := not_configured |} |} ].
Proof.
  intros Hw Hk Hr. rewrite (single_dispatch _ _ _ _ _ _ Hw).
  f_equal. f_equal. apply result_of_round_trip; [|exact Hr].
  unfold performWebSearch. now destruct Hk as [-> | ->].
Qed.

Lemma search_without_key_witness :
  let call := Sample.search (JObj [("query"%string, JStr "cats")]) in
  outcome_of
    (handleFunctionCalls (Known.js [not_configured])
       (performWebSearch (Known.js [not_configured]) None
          (fun _ _ _ => Thrown Sample.network_error))
       [call] (Some "messaging:c1"%string) "m1" (new_handler Sample.msg))
  = Returned [ {| functionCall := call;
                  output := {| output_name := "web_search";
                               response := not_configured |} |} ].
Proof.
  intros call.
  apply (@search_without_key (Known.js [not_configured]) None _ call
           (JObj [("query"%string, JStr "cats")])).
  - reflexivity.
  - now left.
  - reflexivity.
Defined.

(** X9.  A fault of the network does not reach the dispatcher's [catch]:
    when [fetch] throws, or reading the body of the response throws, the
    call's result is the "exception occurred" answer built from the fault
    (its message when it is an [Error], "Unknown error" otherwise), not the
    "failed to call tool" marker. *)
Theorem network_fault_becomes_a_search_result (js : Builtins)
  (key : string) (fetch : string -> string -> string -> Outcome Response)
  (call : FunctionCall) (payload : jsval) (error : Error)
  (cid : option string) (message_id : string) (this : GeminiResponseHandler) :
  is_web_search call = Some payload ->
  key <> ""%string ->
  (let request :=
     fetch "https://api.tavily.com/search"%string ("Bearer " ++ key)%string
           (search_request js (queryForSearch js payload)) in
   request = Thrown error
   \/ exists answer,
        request = Returned answer
        /\ (answer.(ok) = false /\ answer.(response_text) = Thrown error
            \/ answer.(ok) = true /\ answer.(response_json) = Thrown error)) ->
  js.(JSON_parse) (js.(JSON_stringify) (exception_value error))
  = Returned (exception_value error) ->
  outcome_of (handleFunctionCalls js (performWebSearch js (Some key) fetch)
                [call] cid message_id this)
  = Returned [ {| functionCall := call;
                  output := {| output_name := "web_search";
                               response := exception_value error |} |} ].
Proof.
  intros Hw Hk Hf Hr. cbv zeta in Hf. rewrite (single_dispatch _ _ _ _ _ _ Hw).
  f_equal. f_equal. apply result_of_round_trip; [|exact Hr].
  unfold performWebSearch. destruct key as [|c k]; [now elim Hk|].
  destruct Hf as [Hf|(answer & Hf & [[Hok Ht]|[Hok Hj]])]; rewrite Hf.
  - reflexivity.
  - now rewrite Hok, Ht.
  - now rewrite Hok, Hj.
Qed.

Lemma network_fault_becomes_a_search_result_witness :
  let call := Sample.search (JObj [("query"%string, JStr "cats")]) in
  let value := exception_value Sample.network_error in
  outcome_of
    (handleFunctionCalls (Known.js [value])
       (performWebSearch (Known.js [value]) (Some "tvly-key"%string)
          (fun _ _ _ => Thrown Sample.network_error))
       [call] (Some "messaging:c1"%string) "m1" (new_handler Sample.msg))
  = Returned [ {| functionCall := call;
                  output := {| output_name := "web_search";
                               response := value |} |} ].
Proof.
  intros call value.
  apply (@network_fault_becomes_a_search_result (Known.js [value])
           "tvly-key"%string _ call (JObj [("query"%string, JStr "cats")])
           Sample.network_error).
  - reflexivity.
  - discriminate.
  - now left.
  - reflexivity.
Defined.

(** X6.  [performWebSearch] never throws: for every key, every query and
    whatever [fetch] and the response do (resolve, report an HTTP error,
    throw), it returns the [JSON.stringify] text of some value. *)
Theorem web_search_always_answers (js : Builtins) (key : option string)
  (fetch : string -> string -> string -> Outcome Response) (query : string) :
  exists v,
    performWebSearch js key fetch query = Returned (js.(JSON_stringify) v).
Proof.
  unfold performWebSearch, search_exception.
  destruct key as [[|c k]|]; try (eexists; reflexivity).
  destruct (fetch _ _ _) as [r|e]; [|eexists; reflexivity].
  destruct (negb (ok r)).
  - destruct (response_text r); eexists; reflexivity.
  - destruct (response_json r); eexists; reflexivity.
Qed.

(** ** The agent *)

Lemma fresh_not_in (hs : list nat) : ~ In (OpenAIAgent.fresh hs) hs.
Proof.
  unfold OpenAIAgent.fresh. intros H.
  assert (F : Forall (fun k => (k <= list_max hs)%nat) hs)
    by now apply list_max_le.
  rewrite Forall_forall in F. specialize (F _ H). lia.
Qed.

Lemma removeHandler_notin (self : nat) (hs : list nat) :
  ~ In self hs -> removeHandler self hs = hs.
Proof.
  unfold removeHandler. induction hs as [|x hs IH]; intros H;
    [reflexivity|].
  simpl. destruct (Nat.eqb_spec x self) as [->|N]; simpl.
  - elim H. now left.
  - f_equal. apply IH. intros I. apply H. now right.
Qed.

Lemma removeHandler_middle (self : nat) (before later : list nat) :
  ~ In self before -> ~ In self later ->
  removeHandler self (before ++ self :: later) = before ++ later.
Proof.
  intros Hb Hl. unfold removeHandler. rewrite filter_app. simpl.
  rewrite Nat.eqb_refl. simpl.
  fold (removeHandler self before). fold (removeHandler self later).
  now rewrite !removeHandler_notin.
Qed.

Lemma run_releases_once (js : Builtins)
  (provider : string -> Outcome string) (m : MessageResponse)
  (contentStream : ContentStream) :
  count is_OnDispose
    (log_of (run js provider contentStream (new_handler m))) = 1%nat.
Proof.
  rewrite run_eq. unfold log_of. cbv zeta. simpl snd.
  set (start := new_handler m).
  destruct (drain_once js is_OnDispose (arrivals contentStream) start)
    as [Hrel _]; try (intros; reflexivity).
  rewrite count_app, Hrel. unfold once. simpl (is_done start). cbv iota.
  destruct (is_done (fst (drain js (arrivals contentStream) start))) eqn:D;
    destruct (ending contentStream); unfold error_step; rewrite ?D;
    reflexivity.
Qed.

(** X10.  [handleMessage] does nothing at all (no call on the channel or
    the backend, no change of the agent, nothing started) exactly when the
    agent is not initialised, the event carries no message, the message is
    marked [ai_generated], or its text is missing or empty.  In every other
    case it records the interaction time and its first call is the sending
    of the empty placeholder message, marked [ai_generated]. *)
Theorem ignored_messages (date : string) (now : Z)
  (channelMessage : MessageResponse) (runStream : Outcome ContentStream)
  (e : option OpenAIAgent.Message) (agent : OpenAIAgent.Agent) :
  let ignored :=
    agent.(OpenAIAgent.genai) = None
    \/ e = None
    \/ exists m, e = Some m
                 /\ (m.(OpenAIAgent.ai_generated) = true
                     \/ m.(OpenAIAgent.user_text) = None
                     \/ m.(OpenAIAgent.user_text) = Some ""%string) in
  let handled :=
    OpenAIAgent.handleMessage date now channelMessage runStream e agent in
  (ignored -> handled = (Returned None, agent, []))
  /\ (~ ignored ->
      exists rest,
        snd handled = OpenAIAgent.SendMessage "" true :: rest
        /\ OpenAIAgent.getLastInteraction (snd (fst handled)) = now).
Proof.
  cbv zeta. unfold OpenAIAgent.handleMessage. split.
  - intros [G|[E|(m & -> & [A|[T|T]])]].
    + now rewrite G.
    + subst e. now destruct (OpenAIAgent.genai agent).
    + destruct (OpenAIAgent.genai agent); [|reflexivity]. now rewrite A.
    + destruct (OpenAIAgent.genai agent); [|reflexivity]. rewrite T.
      now destruct (OpenAIAgent.ai_generated m).
    + destruct (OpenAIAgent.genai agent); [|reflexivity]. rewrite T.
      now destruct (OpenAIAgent.ai_generated m).
  - intros N.
    destruct (OpenAIAgent.genai agent) as [g|]; [|elim N; now left].
    destruct e as [m|]; [|elim N; right; now left].
    destruct (OpenAIAgent.ai_generated m) eqn:A;
      [elim N; right; right; exists m; auto|].
    destruct (OpenAIAgent.user_text m) as [[|c t]|] eqn:T;
      try (elim N; right; right; exists m; now auto).
    destruct runStream; eexists; split; reflexivity.
Qed.

(** X11.  The agent does not answer itself: a message the agent sends
    during [handleMessage], when it comes back as a "message.new" event, is
    ignored by [handleMessage] in every state of the agent. *)
Theorem own_messages_are_not_answered (date : string) (now : Z)
  (channelMessage : MessageResponse) (runStream : Outcome ContentStream)
  (e : option OpenAIAgent.Message) (agent : OpenAIAgent.Agent)
  (c : OpenAIAgent.Call) :
  In c (snd (OpenAIAgent.handleMessage date now channelMessage runStream
               e agent)) ->
  forall date' now' channelMessage' runStream' agent',
    OpenAIAgent.handleMessage date' now' channelMessage' runStream'
      (OpenAIAgent.echo c) agent'
    = (Returned None, agent', []).
Proof.
  intros Hin date' now' cm' rs' agent'.
  assert (E : OpenAIAgent.echo c = None
              \/ OpenAIAgent.echo c
                 = Some {| OpenAIAgent.user_text := Some ""%string;
                           OpenAIAgent.ai_generated := true;
                           OpenAIAgent.writingTask := None |}).
  { revert Hin. unfold OpenAIAgent.handleMessage.
    destruct (OpenAIAgent.genai agent); [|intros []].
    destruct e as [m|]; [|intros []].
    destruct (OpenAIAgent.ai_generated m); [intros []|].
    destruct (OpenAIAgent.user_text m) as [[|ch t]|]; try (intros []).
    destruct runStream; simpl;
      intros [<-|[<-|[<-|[]]]]; simpl; auto. }
  unfold OpenAIAgent.handleMessage.
  destruct E as [-> | ->]; now destruct (OpenAIAgent.genai agent').
Qed.

Lemma own_messages_are_not_answered_witness :
  let agent := {| OpenAIAgent.genai := Some "key"%string;
                  OpenAIAgent.lastInteractionTs := 0;
                  OpenAIAgent.handlers := [];
                  OpenAIAgent.subscribed := true |} in
  OpenAIAgent.handleMessage "11/2/2026" 2 Sample.msg
    (Returned {| arrivals := []; ending := Completes |})
    (OpenAIAgent.echo (OpenAIAgent.SendMessage "" true)) agent
  = (Returned None, agent, []).
Proof.
  intros agent.
  apply (@own_messages_are_not_answered "11/2/2026" 1 Sample.msg
           (Returned {| arrivals := []; ending := Completes |})
           (Some {| OpenAIAgent.user_text := Some "Improve this"%string;
                    OpenAIAgent.ai_generated := false;
                    OpenAIAgent.writingTask := None |})
           agent (OpenAIAgent.SendMessage "" true)).
  simpl. now left.
Defined.

(** X12.  No handler is left behind.  When [handleMessage] has started a
    handler, and that handler's [run] has come to its end (whatever the
    stream yielded, however it ended, whichever stop events arrived), the
    agent's list holds the handlers it held before the message, and the
    handlers added after it, in their order: the handler of the message
    itself, and no other, has been removed. *)
Theorem handler_is_released (js : Builtins)
  (provider : string -> Outcome string) (date : string) (now : Z)
  (channelMessage : MessageResponse) (stream : ContentStream)
  (e : option OpenAIAgent.Message) (agent agent' : OpenAIAgent.Agent)
  (started : OpenAIAgent.Started) (calls : list OpenAIAgent.Call)
  (later : list nat) :
  OpenAIAgent.handleMessage date now channelMessage (Returned stream) e agent
  = (Returned (Some started), agent', calls) ->
  ~ In started.(OpenAIAgent.self) later ->
  let finished :=
    run js provider started.(OpenAIAgent.contentStream)
      started.(OpenAIAgent.handler) in
  handlers_after started.(OpenAIAgent.self) (log_of finished)
    (agent'.(OpenAIAgent.handlers) ++ later)
  = agent.(OpenAIAgent.handlers) ++ later.
Proof.
  intros H Hl finished. subst finished. revert H.
  unfold OpenAIAgent.handleMessage.
  destruct (OpenAIAgent.genai agent); [|discriminate].
  destruct e as [m|]; [|discriminate].
  destruct (OpenAIAgent.ai_generated m); [discriminate|].
  destruct (OpenAIAgent.user_text m) as [[|ch t]|]; try discriminate.
  intros H. injection H as <- <- _. simpl.
  rewrite handlers_after_count, run_releases_once. simpl.
  rewrite <- app_assoc. simpl.
  apply removeHandler_middle; [apply fresh_not_in|exact Hl].
Qed.

Lemma handler_is_released_witness :
  let agent := {| OpenAIAgent.genai := Some "key"%string;
                  OpenAIAgent.lastInteractionTs := 0;
                  OpenAIAgent.handlers := [1%nat; 2%nat];
                  OpenAIAgent.subscribed := true |} in
  let stream :=
    {| arrivals := [Yields (Sample.text_chunk "Hi") 5000;
                    StopSignal (Sample.stop "m1")];
       ending := Faults Sample.network_error |} in
  handlers_after 3
    (log_of (run Sample.js Sample.answering stream (new_handler Sample.msg)))
    ([1%nat; 2%nat; 3%nat] ++ [4%nat])
  = [1%nat; 2%nat] ++ [4%nat].
Proof.
  intros agent stream.
  apply (@handler_is_released Sample.js Sample.answering "11/2/2026" 1
           Sample.msg stream
           (Some {| OpenAIAgent.user_text := Some "Improve this"%string;
                    OpenAIAgent.ai_generated := false;
                    OpenAIAgent.writingTask := None |})
           agent
           {| OpenAIAgent.genai := Some "key"%string;
              OpenAIAgent.lastInteractionTs := 1;
              OpenAIAgent.handlers := [1%nat; 2%nat; 3%nat];
              OpenAIAgent.subscribed := true |}
           {| OpenAIAgent.self := 3%nat;
              OpenAIAgent.handler := new_handler Sample.msg;
              OpenAIAgent.contentStream := stream |}
           (snd (OpenAIAgent.handleMessage "11/2/2026" 1 Sample.msg
                   (Returned stream)
                   (Some {| OpenAIAgent.user_text := Some "Improve this"%string;
                            OpenAIAgent.ai_generated := false;
                            OpenAIAgent.writingTask := None |})
                   agent))
           [4%nat]).
  - reflexivity.
  - simpl. intros [H|[]]. discriminate H.
Defined.

(** X13.  When the generation backend refuses to open the stream,
    [handleMessage] throws that fault after it has sent the placeholder
    message and the THINKING status: no handler is started or listed, and
    no call follows that would clear the status or write an error into
    the placeholder. *)
Theorem failed_stream_leaves_the_placeholder (date : string) (now : Z)
  (channelMessage : MessageResponse) (error : Error)
  (m : OpenAIAgent.Message) (agent : OpenAIAgent.Agent) (t : string) :
  agent.(OpenAIAgent.genai) <> None ->
  m.(OpenAIAgent.ai_generated) = false ->
  m.(OpenAIAgent.user_text) = Some t ->
  t <> ""%string ->
  let handled :=
    OpenAIAgent.handleMessage date now channelMessage (Thrown error)
      (Some m) agent in
  fst (fst handled) = Thrown error
  /\ OpenAIAgent.handlers (snd (fst handled)) = OpenAIAgent.handlers agent
  /\ exists content,
       snd handled
       = [OpenAIAgent.SendMessage "" true;
          OpenAIAgent.SendStatus
            (ai_indicator_update AI_STATE_THINKING
               channelMessage.(cid) channelMessage.(id));
          OpenAIAgent.GenerateContentStream "gemini-2.5-flash" content
            0.7%float].
Proof.
  intros G A T N handled. subst handled. unfold OpenAIAgent.handleMessage.
  destruct (OpenAIAgent.genai agent); [|now elim G].
  rewrite A, T. destruct t as [|c t]; [now elim N|].
  split; [reflexivity|]. split; [reflexivity|]. eexists. reflexivity.
Qed.

Lemma failed_stream_leaves_the_placeholder_witness :
  let agent := {| OpenAIAgent.genai := Some "key"%string;
                  OpenAIAgent.lastInteractionTs := 0;
                  OpenAIAgent.handlers := [];
                  OpenAIAgent.subscribed := true |} in
  let m := {| OpenAIAgent.user_text := Some "Improve this"%string;
              OpenAIAgent.ai_generated := false;
              OpenAIAgent.writingTask := None |} in
  let handled :=
    OpenAIAgent.handleMessage "11/2/2026" 1 Sample.msg
      (Thrown Sample.network_error) (Some m) agent in
  fst (fst handled) = Thrown Sample.network_error
  /\ OpenAIAgent.handlers (snd (fst handled)) = OpenAIAgent.handlers agent
  /\ exists content,
       snd handled
       = [OpenAIAgent.SendMessage "" true;
          OpenAIAgent.SendStatus
            (ai_indicator_update AI_STATE_THINKING
               Sample.msg.(cid) Sample.msg.(id));
          OpenAIAgent.GenerateContentStream "gemini-2.5-flash" content
            0.7%float].
Proof.
  intros agent m.
  apply (@failed_stream_leaves_the_placeholder "11/2/2026" 1 Sample.msg
           Sample.network_error m agent "Improve this"%string).
  - discriminate.
  - reflexivity.
  - reflexivity.
  - discriminate.
Defined.

(** X14.  Messages are handled only between [init] and [dispose].  A new
    agent ignores every "message.new" event.  [init] without an API key
    ([GEMINI_API_KEY] unset or empty) throws and leaves the agent as it
    was, so the agent goes on ignoring every event.  After [dispose] an
    emitted event is ignored as well; [dispose] itself leaves the list of
    handlers as it is. *)
Theorem messages_need_init (date : string) (now : Z)
  (channelMessage : MessageResponse) (runStream : Outcome ContentStream)
  (e : option OpenAIAgent.Message) :
  (forall t,
     OpenAIAgent.emit_message_new date now channelMessage runStream e
       (OpenAIAgent.new_agent t)
     = (Returned None, OpenAIAgent.new_agent t, []))
  /\ (forall key agent,
        key = None \/ key = Some ""%string ->
        snd (fst (OpenAIAgent.init key agent)) = agent
        /\ snd (OpenAIAgent.init key agent) = []
        /\ exists error,
             fst (fst (OpenAIAgent.init key agent)) = Thrown error
             /\ error.(error_message)
                = Some "GEMINI_API_KEY is required"%string)
  /\ (forall key t,
        key = None \/ key = Some ""%string ->
        let agent := snd (fst (OpenAIAgent.init key (OpenAIAgent.new_agent t))) in
        OpenAIAgent.handleMessage date now channelMessage runStream e agent
        = (Returned None, agent, []))
  /\ (forall agent,
        let agent' := snd (fst (OpenAIAgent.dispose agent)) in
        OpenAIAgent.emit_message_new date now channelMessage runStream e agent'
        = (Returned None, agent', [])
        /\ OpenAIAgent.handlers agent' = OpenAIAgent.handlers agent).
Proof.
  split; [|split; [|split]].
  - intros t. reflexivity.
  - intros key agent [-> | ->]; simpl; repeat split; eexists; split;
      reflexivity.
  - intros key t [-> | ->]; reflexivity.
  - intros agent. split; reflexivity.
Qed.

(** X15.  Everything that is sent for one user message goes to the
    placeholder created for it: the THINKING status of [handleMessage]
    carries the placeholder's ids, the handler it starts consumes the
    stream the backend opened, and every message update and status event of
    that handler's [run] is addressed to the placeholder. *)
Theorem started_run_writes_to_the_placeholder (js : Builtins)
  (provider : string -> Outcome string) (date : string) (now : Z)
  (channelMessage : MessageResponse) (stream : ContentStream)
  (e : option OpenAIAgent.Message) (agent agent' : OpenAIAgent.Agent)
  (started : OpenAIAgent.Started) (calls : list OpenAIAgent.Call) :
  OpenAIAgent.handleMessage date now channelMessage (Returned stream) e agent
  = (Returned (Some started), agent', calls) ->
  In (OpenAIAgent.SendStatus
        (ai_indicator_update AI_STATE_THINKING
           channelMessage.(cid) channelMessage.(id))) calls
  /\ started.(OpenAIAgent.contentStream) = stream
  /\ Forall (addressed_to channelMessage)
       (log_of (run js provider started.(OpenAIAgent.contentStream)
                  started.(OpenAIAgent.handler))).
Proof.
  unfold OpenAIAgent.handleMessage.
  destruct (OpenAIAgent.genai agent); [|discriminate].
  destruct e as [m|]; [|discriminate].
  destruct (OpenAIAgent.ai_generated m); [discriminate|].
  destruct (OpenAIAgent.user_text m) as [[|ch t]|]; try discriminate.
  intros H. injection H as <- _ <-. simpl.
  split; [auto|]. split; [reflexivity|].
  apply run_writes_to_its_own_message_lemma.
Qed.

Lemma started_run_writes_to_the_placeholder_witness :
  let agent := {| OpenAIAgent.genai := Some "key"%string;
                  OpenAIAgent.lastInteractionTs := 0;
                  OpenAIAgent.handlers := [];
                  OpenAIAgent.subscribed := true |} in
  let stream :=
    {| arrivals := [Yields (Sample.text_chunk "Hi") 5000];
       ending := Completes |} in
  let handled :=
    OpenAIAgent.handleMessage "11/2/2026" 1 Sample.msg (Returned stream)
      (Some {| OpenAIAgent.user_text := Some "Improve this"%string;
               OpenAIAgent.ai_generated := false;
               OpenAIAgent.writingTask := None |})
      agent in
  In (OpenAIAgent.SendStatus
        (ai_indicator_update AI_STATE_THINKING
           Sample.msg.(cid) Sample.msg.(id))) (snd handled)
  /\ stream = stream
  /\ Forall (addressed_to Sample.msg)
       (log_of (run Sample.js Sample.answering stream
                  (new_handler Sample.msg))).
Proof.
  intros agent stream handled.
  apply (@started_run_writes_to_the_placeholder Sample.js Sample.answering
           "11/2/2026" 1 Sample.msg stream
           (Some {| OpenAIAgent.user_text := Some "Improve this"%string;
                    OpenAIAgent.ai_generated := false;
                    OpenAIAgent.writingTask := None |})
           agent (snd (fst handled))
           {| OpenAIAgent.self := 1%nat;
              OpenAIAgent.handler := new_handler Sample.msg;
              OpenAIAgent.contentStream := stream |}
           (snd handled)).
  reflexivity.
Defined.

(** ** The rate of the throttled updates *)

Lemma spaced_span (times : list Z) (t0 : Z) :
  spaced 1001 (t0 :: times) ->
  1001 * Z.of_nat (List.length times) <= last times t0 - t0.
Proof.
  revert t0. induction times as [|t rest IH]; intros t0 H.
  - simpl. lia.
  - destruct H as [G H]. specialize (IH t H).
    rewrite last_cons. change (List.length (t :: rest)) with (S (List.length rest)).
    rewrite Nat2Z.inj_succ. lia.
Qed.

(** X16.  The throttled updates of a run cannot come faster than one per
    1001 clock units: if the loop sent [k] text updates, the clock reading
    of the last one is at least [1001 * (k - 1)] later than that of the
    first one. *)
Theorem throttled_updates_rate (js : Builtins)
  (provider : string -> Outcome string) (m : MessageResponse)
  (arrived : list Arrival) (how : Ending) :
  let times :=
    flush_times (log_of (for_await js provider arrived how (new_handler m))) in
  1001 * (Z.of_nat (List.length times) - 1) <= last times 0 - hd 0 times.
Proof.
  cbv zeta. rewrite for_await_eq. unfold log_of. simpl snd.
  destruct (drain_flush js arrived (new_handler m)) as ([_ Hs] & _ & _).
  destruct (flush_times (snd (drain js arrived (new_handler m))))
    as [|t rest].
  - simpl. lia.
  - pose proof (@spaced_span rest t Hs) as H.
    rewrite last_cons. change (hd 0 (t :: rest)) with t.
    change (List.length (t :: rest)) with (S (List.length rest)).
    rewrite Nat2Z.inj_succ. lia.
Qed.

(** X17.  The bound of the throttle is strict.  For a chunk with a
    non-empty text: when more than 1000 have passed since
    [last_update_time], the whole accumulated text is sent and the reading
    is recorded; when exactly 1000 or less have passed, nothing is sent and
    [last_update_time] stays. *)
Theorem flush_exactly_when_more_than_1000 (js : Builtins)
  (provider : string -> Outcome string) (chunk : GenerateContentResponse)
  (now : Z) (this : GeminiResponseHandler) (s : string) :
  chunk.(text) = Some s ->
  s <> ""%string ->
  let stepped := on_chunk js provider chunk now this in
  (1000 < now - last_update_time this ->
   update_texts (log_of stepped) = [(message_text this ++ s)%string]
   /\ last_update_time (handler_of stepped) = now)
  /\ (now - last_update_time this <= 1000 ->
      update_texts (log_of stepped) = []
      /\ last_update_time (handler_of stepped) = last_update_time this).
Proof.
  intros T N stepped. subst stepped. rewrite on_chunk_eq.
  unfold log_of, handler_of. cbn [fst snd].
  rewrite update_texts_app, calls_log_texts. cbn [app].
  unfold text_step. rewrite T.
  destruct (String.eqb_spec s "") as [E|_]; [now elim N|].
  destruct (now - last_update_time this >? 1000) eqn:G.
  - apply Z.gtb_lt in G. split; [intros _; split; reflexivity|lia].
  - assert (now - last_update_time this <= 1000).
    { destruct (Z.gtb_spec (now - last_update_time this) 1000); [discriminate|lia]. }
    split; [lia|intros _; split; reflexivity].
Qed.

Lemma flush_exactly_when_more_than_1000_witness :
  let this := {| message_text := "Hel";
                 chunk_counter := 1;
                 run_id := "";
                 is_done := false;
                 last_update_time := 5000;
                 message := Sample.msg;
                 listening := true |} in
  update_texts
    (log_of (on_chunk Sample.js Sample.answering (Sample.text_chunk "lo")
               6000 this)) = []
  /\ update_texts
       (log_of (on_chunk Sample.js Sample.answering (Sample.text_chunk "lo")
                  6001 this)) = ["Hello"%string].
Proof.
  intros this. split.
  - apply (proj2 (@flush_exactly_when_more_than_1000 Sample.js
                    Sample.answering (Sample.text_chunk "lo") 6000 this
                    "lo"%string eq_refl ltac:(discriminate))).
    simpl. lia.
  - apply (proj1 (@flush_exactly_when_more_than_1000 Sample.js
                    Sample.answering (Sample.text_chunk "lo") 6001 this
                    "lo"%string eq_refl ltac:(discriminate))).
    simpl. lia.
Defined.

(** ** Runs at the grain of their awaits *)

Lemma append_text_eq (chunk : GenerateContentResponse) (now : Z)
  (this : GeminiResponseHandler) :
  Await.append_text chunk now this
  = (Returned tt, fst (text_step this chunk now),
     snd (text_step this chunk now)).
Proof.
  unfold Await.append_text, text_step.
  destruct (text chunk) as [s|]; [|reflexivity].
  destruct (s =? "")%string; [reflexivity|].
  unfold bind, get, set_message_text, set_last_update_time,
    set_chunk_counter, Date_now, partialUpdateMessage, put, log, ret.
  cbn. destruct (now - last_update_time this >? 1000); cbn; reflexivity.
Qed.

Lemma perform_eq (m : M unit) (next : Await.Stage)
  (rest : list (GenerateContentResponse * Z)) (c : Await.Config) :
  Await.perform m next rest c
  = {| Await.handler := handler_of (m c.(Await.handler));
       Await.stage := next;
       Await.upcoming := rest;
       Await.finish := c.(Await.finish);
       Await.suspended := c.(Await.suspended);
       Await.sent := c.(Await.sent) ++ log_of (m c.(Await.handler)) |}.
Proof.
  unfold Await.perform, handler_of, log_of.
  now destruct (m (Await.handler c)) as [[o h] l].
Qed.

Lemma final_eq (this : GeminiResponseHandler) :
  (partialUpdateMessage this.(message).(id) this.(message_text) None ;;
   sendEvent (ai_indicator_clear this.(message).(cid) this.(message).(id)) ;;
   dispose) this
  = (Returned tt, if this.(is_done) then this else disposed this,
     [PartialUpdateMessage this.(message).(id) this.(message_text) None;
      SendEvent (ai_indicator_clear this.(message).(cid) this.(message).(id))]
     ++ (if this.(is_done) then [] else [Off; OnDispose])).
Proof.
  unfold bind, partialUpdateMessage, sendEvent, log. rewrite dispose_eq.
  now destruct (is_done this).
Qed.

Lemma dispose_twice_eq (this : GeminiResponseHandler) :
  (dispose ;; dispose) this
  = (Returned tt, if this.(is_done) then this else disposed this,
     if this.(is_done) then [] else [Off; OnDispose]).
Proof.
  unfold bind. rewrite dispose_eq.
  destruct (is_done this) eqn:D; rewrite dispose_eq; simpl; now rewrite ?D.
Qed.

Lemma next_search_some (js : Builtins) (calls rest : list FunctionCall)
  (query : string) :
  Await.next_search js calls = Some (query, rest) ->
  List.length (dispatched calls) = S (List.length (dispatched rest)).
Proof.
  induction calls as [|call calls IH]; [discriminate|].
  unfold dispatched in *. simpl.
  destruct (is_web_search call).
  - intros H. injection H as _ <-. reflexivity.
  - exact IH.
Qed.

Lemma cost_positive (chunks : list (GenerateContentResponse * Z)) :
  (3 <= Await.cost chunks)%nat.
Proof.
  induction chunks as [|[chunk now] rest IH]; simpl; [lia|].
  destruct (functionCalls chunk); lia.
Qed.

Lemma left_zero (c : Await.Config) :
  Await.left c = 0%nat -> exists o, c.(Await.stage) = Await.Settled o.
Proof.
  unfold Await.left. destruct (Await.stage c); try lia.
  - pose proof (cost_positive (Await.upcoming c)). lia.
  - eauto.
Qed.

(** Every time [run] goes on it comes closer to its end. *)
Lemma resume_left (js : Builtins) (c : Await.Config) :
  Await.left c <> 0%nat ->
  (S (Await.left (Await.resume js c)) <= Await.left c)%nat.
Proof.
  unfold Await.resume, Await.catch.
  destruct (Await.stage c)
    as [|calls chunk now|calls chunk now|e|fault| |o] eqn:S.
  - intros _. unfold Await.left at 2. rewrite S.
    destruct (Await.upcoming c) as [|[chunk now] rest].
    + destruct (Await.finish c) as [|fault].
      * rewrite perform_eq. unfold Await.left. simpl. lia.
      * destruct (is_done (Await.handler c)); rewrite perform_eq;
          unfold Await.left; simpl; lia.
    + simpl Await.cost.
      pose proof (cost_positive rest).
      destruct (functionCalls chunk) as [[|call calls]|];
        rewrite perform_eq; unfold Await.left; simpl; lia.
  - intros _. unfold Await.left at 2. rewrite S.
    destruct (Await.next_search js calls) as [[query rest]|] eqn:N;
      rewrite perform_eq; unfold Await.left; simpl.
    + rewrite (next_search_some _ _ N). lia.
    + lia.
  - intros _. unfold Await.left at 2. rewrite S.
    destruct (Await.next_search js calls) as [[query rest]|] eqn:N;
      rewrite perform_eq; unfold Await.left; simpl.
    + rewrite (next_search_some _ _ N). lia.
    + lia.
  - intros _. unfold Await.left at 2. rewrite S.
    destruct (is_done (Await.handler c)); rewrite perform_eq;
      unfold Await.left; simpl; lia.
  - intros _. unfold Await.left at 2. rewrite S.
    destruct (Await.error_arguments fault) as [[t u]|e];
      rewrite perform_eq; unfold Await.left; simpl; lia.
  - intros _. unfold Await.left at 2. rewrite S.
    rewrite perform_eq. unfold Await.left. simpl. lia.
  - intros H. elim H. unfold Await.left. now rewrite S.
Qed.

Lemma step_left (js : Builtins) (t : Await.Tick) (c : Await.Config) :
  (Await.left (Await.step js t c) + Await.resumes [t] <= Await.left c)%nat
  \/ Await.left (Await.step js t c) = 0%nat.
Proof.
  destruct t as [|e|event| |]; simpl.
  - destruct (Nat.eq_dec (Await.left c) 0) as [Z|N].
    + right. unfold Await.left in Z.
      destruct (Await.stage c) eqn:S; try lia.
      * pose proof (cost_positive (Await.upcoming c)). lia.
      * unfold Await.resume. rewrite S. unfold Await.left. now rewrite S.
    + left. pose proof (resume_left js c N). lia.
  - unfold Await.rejects.
    destruct (Await.stage c) eqn:S; rewrite ?perform_eq;
      try (left; lia); try (right; reflexivity).
    left. unfold Await.left. rewrite S. simpl.
    pose proof (cost_positive (Await.upcoming c)). lia.
  - left. unfold Await.stop_arrives.
    destruct (listening (Await.handler c)); [|lia].
    destruct (is_done (Await.handler c) || _); [lia|].
    unfold Await.left. simpl. lia.
  - left. unfold Await.stop_resumes.
    destruct (Await.suspended c); [lia|].
    destruct (dispose (Await.handler c)) as [[o h] l].
    unfold Await.left. simpl. lia.
  - left. unfold Await.stop_rejects.
    destruct (Await.suspended c); [lia|].
    unfold Await.left. simpl. lia.
Qed.

Lemma settled_stays (js : Builtins) (schedule : list Await.Tick)
  (c : Await.Config) :
  Await.left c = 0%nat -> Await.left (Await.exec js schedule c) = 0%nat.
Proof.
  revert c. induction schedule as [|t rest IH]; intros c Z; [exact Z|].
  simpl. apply IH. destruct (step_left js t c) as [H|H]; [lia|exact H].
Qed.

(** A schedule that lets [run] go on often enough brings it to its end. *)
Lemma exec_settles (js : Builtins) (schedule : list Await.Tick)
  (c : Await.Config) :
  (Await.left c <= Await.resumes schedule)%nat ->
  exists o, (Await.exec js schedule c).(Await.stage) = Await.Settled o.
Proof.
  intros H. apply left_zero. revert c H.
  induction schedule as [|t rest IH]; intros c H.
  - simpl in *. lia.
  - simpl Await.exec. destruct (step_left js t c) as [L|Z].
    + apply IH.
      assert (E : Await.resumes (t :: rest)
                  = (Await.resumes [t] + Await.resumes rest)%nat)
        by now destruct t.
      lia.
    + now apply settled_stays.
Qed.

Lemma start_sound (m : MessageResponse)
  (chunks : list (GenerateContentResponse * Z)) (fin : Await.End) :
  Await.sound m fin (Await.start m chunks fin).
Proof.
  unfold Await.sound, Await.start. simpl.
  repeat split; try reflexivity; try discriminate.
Qed.

Lemma text_step_quiet (p : Effect -> bool) (this : GeminiResponseHandler)
  (chunk : GenerateContentResponse) (now : Z) :
  (forall t, p (DateNow t) = false) ->
  (forall i s o, p (PartialUpdateMessage i s o) = false) ->
  count p (snd (text_step this chunk now)) = 0%nat.
Proof.
  intros Hd Hu. unfold text_step, count.
  destruct (text chunk) as [s|]; [|reflexivity].
  destruct (s =? "")%string; [reflexivity|].
  destruct (now - last_update_time this >? 1000); simpl;
    now rewrite ?Hd, ?Hu.
Qed.

Ltac await_unfold :=
  rewrite ?perform_eq;
  rewrite ?append_text_eq, ?final_eq, ?dispose_twice_eq, ?dispose_eq;
  unfold handler_of, log_of, sendEvent, partialUpdateMessage, log;
  cbn [fst snd Await.handler Await.stage Await.upcoming Await.finish
       Await.suspended Await.sent].

Ltac sound_goal J3 J4 :=
  try assumption;
  intros;
  repeat match goal with
         | H : _ \/ _ |- _ => destruct H
         | H : exists _, _ |- _ => destruct H
         end;
  first
    [ assumption
    | discriminate
    | reflexivity
    | congruence
    | rewrite ?count_app, ?text_step_quiet by (intros; reflexivity);
      rewrite ?J3 by (assumption || reflexivity);
      rewrite ?J4 by (assumption || reflexivity);
      unfold count; simpl; lia
    | eexists; eassumption ].

Lemma step_sound (js : Builtins) (m : MessageResponse) (fin : Await.End)
  (t : Await.Tick) (c : Await.Config) :
  Await.settles t = true ->
  Await.sound m fin c -> Await.sound m fin (Await.step js t c).
Proof.
  intros Q Hc.
  pose proof Hc as (J1 & J2 & J3 & J4 & J5 & J6 & J7 & J8 & J9 & J10).
  destruct t as [|e|event| |]; simpl; try discriminate Q.
  - unfold Await.resume, Await.catch.
    destruct (Await.stage c)
      as [|calls chunk now|calls chunk now|e|fault| |o] eqn:S.
    + destruct (Await.upcoming c) as [|[chunk now] rest].
      * destruct (Await.finish c) as [|fault] eqn:F.
        -- await_unfold. unfold Await.sound.
           destruct (is_done (Await.handler c)) eqn:D; simpl;
             repeat split; sound_goal J3 J4.
        -- destruct (is_done (Await.handler c)) eqn:D; await_unfold;
             rewrite ?D; unfold Await.sound; simpl;
             repeat split; sound_goal J3 J4.
      * destruct (text_step_message (Await.handler c) chunk now)
          as (E1 & E2 & _).
        destruct (functionCalls chunk) as [[|call calls]|]; await_unfold;
          unfold Await.sound; simpl; rewrite ?E1, ?E2;
          repeat split; sound_goal J3 J4.
    + destruct (text_step_message (Await.handler c) chunk now)
        as (E1 & E2 & _).
      destruct (Await.next_search js calls) as [[query rest]|];
        await_unfold; unfold Await.sound; simpl; rewrite ?E1, ?E2;
        repeat split; sound_goal J3 J4.
    + destruct (text_step_message (Await.handler c) chunk now)
        as (E1 & E2 & _).
      destruct (Await.next_search js calls) as [[query rest]|];
        await_unfold; unfold Await.sound; simpl; rewrite ?E1, ?E2;
        repeat split; sound_goal J3 J4.
    + elim (J9 e eq_refl).
    + specialize (J7 fault eq_refl).
      destruct fault as [|msg|error]; cbn [Await.error_arguments];
        await_unfold; unfold Await.sound; simpl;
        destruct (is_done (Await.handler c)) eqn:D; simpl;
        repeat split; sound_goal J3 J4.
    + destruct (J8 eq_refl) as [e Fe].
      await_unfold. unfold Await.sound. simpl.
      destruct (is_done (Await.handler c)) eqn:D; simpl;
        repeat split; sound_goal J3 J4.
    + exact Hc.
  - unfold Await.stop_arrives.
    destruct (listening (Await.handler c)); [|exact Hc].
    destruct (is_done (Await.handler c)) eqn:D; simpl; [exact Hc|].
    destruct (differs _ _); [exact Hc|].
    unfold Await.sound. simpl. repeat split; try assumption;
      try (intros o H; discriminate (J5 o H));
      try (intros o H ?; discriminate (J5 o H));
      sound_goal J3 J4.
  - unfold Await.stop_resumes.
    destruct (Await.suspended c) as [|n] eqn:P; [exact Hc|].
    rewrite dispose_eq.
    destruct (is_done (Await.handler c)) eqn:D;
      unfold Await.sound; simpl; rewrite ?D; rewrite ?app_nil_r;
      repeat split; sound_goal J3 J4.
Qed.

Lemma exec_sound (js : Builtins) (m : MessageResponse) (fin : Await.End)
  (schedule : list Await.Tick) (c : Await.Config) :
  forallb Await.settles schedule = true ->
  Await.sound m fin c -> Await.sound m fin (Await.exec js schedule c).
Proof.
  revert c. induction schedule as [|t rest IH]; intros c Q H; [exact H|].
  simpl in Q. apply andb_true_iff in Q as [Qt Qr].
  simpl. apply IH; [exact Qr|]. now apply step_sound.
Qed.









(** The chat transport fails while [handleError] waits for its update of
    the message (l.157): [handleError] rejects, and so does [run] once its
    [finally] has released the handler. *)
Example failing_transport_escapes_run :
  let final :=
    Await.exec Sample.js
      [Await.Resume; Await.Resume; Await.Resume;
       Await.Rejects Sample.network_error]
      (Await.start Sample.msg [(Sample.text_chunk "partial", 5000)]
         (Await.Throws (Await.AnError Sample.network_error))) in
  final.(Await.stage) = Await.Settled (Thrown Sample.network_error)
  /\ final.(Await.sent)
     = [DateNow 5000;
        PartialUpdateMessage "m1" "partial" None;
        SendEvent (ai_indicator_update AI_STATE_ERROR
                     (Some "messaging:c1"%string) "m1");
        PartialUpdateMessage "m1" "Error: fetch failed"
          (Some "TypeError: fetch failed"%string);
        Off; OnDispose].
Proof. split; reflexivity. Qed.

(** ** Without stop events and failures, the two grains agree *)

Lemma settled_resumes (js : Builtins) (n : nat) (c : Await.Config)
  (o : Outcome unit) :
  c.(Await.stage) = Await.Settled o ->
  Await.exec js (repeat Await.Resume n) c = c.
Proof.
  intros S. induction n as [|n IH]; [reflexivity|].
  simpl. unfold Await.resume. rewrite S. exact IH.
Qed.

(** The loop over the calls of a chunk, then its text. *)
Lemma calls_resume (js : Builtins) (chunk : GenerateContentResponse)
  (now : Z) (rest : list (GenerateContentResponse * Z)) (fin : Await.End)
  (p : nat) (calls : list FunctionCall) :
  forall (h : GeminiResponseHandler) (s : list Effect) (n : nat)
         (waiting : Await.Stage),
  waiting = Await.InSendEvent calls chunk now
  \/ waiting = Await.InPerformWebSearch calls chunk now ->
  (S (List.length (dispatched calls)) + Await.cost rest <= n)%nat ->
  exists n',
    (Await.cost rest <= n')%nat
    /\ Await.exec js (repeat Await.Resume n)
         {| Await.handler := h; Await.stage := waiting;
            Await.upcoming := rest; Await.finish := fin;
            Await.suspended := p; Await.sent := s |}
       = Await.exec js (repeat Await.Resume n')
           {| Await.handler := fst (text_step h chunk now);
              Await.stage := Await.InForAwait;
              Await.upcoming := rest; Await.finish := fin;
              Await.suspended := p;
              Await.sent :=
                s ++ map (fun ca => PerformWebSearch
                                      (queryForSearch js (snd ca)))
                         (dispatched calls)
                  ++ snd (text_step h chunk now) |}.
Proof.
  induction calls as [|call calls IH]; intros h s n waiting W N.
  - destruct n as [|n]; [simpl in N; lia|].
    exists n. split; [simpl in N; lia|].
    simpl. unfold Await.resume.
    destruct W as [-> | ->]; cbn [Await.stage Await.next_search];
      await_unfold; reflexivity.
  - unfold dispatched in *. cbn [flat_map] in *.
    destruct (is_web_search call) as [a|] eqn:A.
    + destruct n as [|n]; [simpl in N; lia|].
      destruct (IH h (s ++ [PerformWebSearch (queryForSearch js a)]) n
                  (Await.InPerformWebSearch calls chunk now))
        as (n' & Hn & E); [now right|simpl in N; lia|].
      exists n'. split; [exact Hn|].
      rewrite <- app_assoc in E. cbn [app] in E. cbn [map app snd].
      rewrite <- E. cbn [repeat Await.exec Await.step].
      f_equal. unfold Await.resume.
      destruct W as [-> | ->]; cbn [Await.stage Await.next_search];
        rewrite A; await_unfold; reflexivity.
    + destruct (IH h s n (Await.InPerformWebSearch calls chunk now))
        as (n' & Hn & E); [now right|exact N|].
      exists n'. split; [exact Hn|]. cbn [app].
      rewrite <- E. destruct n as [|n]; [simpl in N; lia|].
      cbn [repeat Await.exec Await.step]. f_equal. unfold Await.resume.
      destruct W as [-> | ->]; cbn [Await.stage Await.next_search];
        rewrite A; reflexivity.
Qed.

(** [run] from a pull of the stream to its end. *)
Lemma loop_resume (js : Builtins) (ending : Ending) (p : nat)
  (chunks : list (GenerateContentResponse * Z)) :
  forall (h : GeminiResponseHandler) (s : list Effect) (n : nat),
  (Await.cost chunks <= n)%nat ->
  Await.exec js (repeat Await.Resume n)
    {| Await.handler := h; Await.stage := Await.InForAwait;
       Await.upcoming := chunks; Await.finish := Await.end_of ending;
       Await.suspended := p; Await.sent := s |}
  = let drained := drain js (Await.stream_of chunks ending).(arrivals) h in
    let after := fst drained in
    {| Await.handler := if after.(is_done) then after else disposed after;
       Await.stage := Await.Settled (Returned tt);
       Await.upcoming := [];
       Await.finish := Await.end_of ending;
       Await.suspended := p;
       Await.sent :=
         s ++ snd drained
           ++ match ending with
              | Completes =>
                  [PartialUpdateMessage after.(message).(id)
                     after.(message_text) None;
                   SendEvent (ai_indicator_clear after.(message).(cid)
                                after.(message).(id))]
                  ++ (if after.(is_done) then [] else [Off; OnDispose])
              | Faults error => error_step after error
              end |}.
Proof.
  induction chunks as [|[chunk now] rest IH]; intros h s n N.
  - cbn [Await.stream_of arrivals map drain fst snd app].
    simpl in N. destruct n as [|n]; [lia|].
    cbn [repeat Await.exec Await.step].
    unfold Await.resume at 1, Await.catch.
    cbn [Await.stage Await.upcoming Await.finish Await.handler].
    destruct ending as [|error]; cbn [Await.end_of].
    + await_unfold. erewrite settled_resumes by reflexivity. reflexivity.
    + unfold error_step. destruct (is_done h) eqn:D.
      * await_unfold. rewrite D.
        erewrite settled_resumes by reflexivity. reflexivity.
      * destruct n as [|[|n]]; try lia.
        cbn [repeat Await.exec Await.step]. await_unfold.
        unfold Await.resume at 2.
        cbn [Await.stage Await.error_arguments Await.handler].
        await_unfold.
        unfold Await.resume at 1. cbn [Await.stage Await.handler].
        await_unfold. rewrite D.
        erewrite settled_resumes by reflexivity.
        rewrite <- !app_assoc. reflexivity.
  - cbn [Await.stream_of arrivals map drain arrive fst snd].
    cbn [Await.stream_of arrivals] in IH.
    unfold calls_log. simpl in N.
    destruct (functionCalls chunk) as [[|call calls]|] eqn:F.
    + destruct n as [|n]; [lia|]. cbn [repeat Await.exec Await.step].
      unfold Await.resume at 1. cbn [Await.stage Await.upcoming].
      rewrite F. await_unfold. rewrite IH by lia. cbv zeta.
      cbn [app]. f_equal. rewrite <- !app_assoc. reflexivity.
    + destruct n as [|n]; [lia|]. cbn [repeat Await.exec Await.step].
      unfold Await.resume at 1. cbn [Await.stage Await.upcoming].
      rewrite F. await_unfold.
      match goal with
      | |- Await.exec js _ {| Await.sent := ?s' |} = _ =>
          destruct (@calls_resume js chunk now rest (Await.end_of ending)
                      p (call :: calls) h s' n
                      (Await.InSendEvent (call :: calls) chunk now))
            as (n' & Hn & E); [now left|lia|]
      end.
      rewrite E, IH by exact Hn. cbv zeta.
      f_equal. rewrite <- !app_assoc. reflexivity.
    + destruct n as [|n]; [lia|]. cbn [repeat Await.exec Await.step].
      unfold Await.resume at 1. cbn [Await.stage Await.upcoming].
      rewrite F. await_unfold. rewrite IH by lia. cbv zeta.
      cbn [app]. f_equal. rewrite <- !app_assoc. reflexivity.
Qed.

(** A schedule that only lets [run] go on, often enough, leaves the
    handler and the log that [run] above leaves on the same stream. *)
Lemma await_agrees_with_run (js : Builtins)
  (provider : string -> Outcome string) (m : MessageResponse)
  (chunks : list (GenerateContentResponse * Z)) (e : Ending)
  (n : nat) :
  (Await.cost chunks <= n)%nat ->
  let c :=
    Await.exec js (repeat Await.Resume n)
      (Await.start m chunks (Await.end_of e)) in
  let r := run js provider (Await.stream_of chunks e) (new_handler m) in
  c.(Await.stage) = Await.Settled (Returned tt)
  /\ c.(Await.handler) = handler_of r
  /\ c.(Await.sent) = log_of r.
Proof.
  intros N c r. subst c r. unfold Await.start.
  rewrite loop_resume by exact N. rewrite run_eq. cbv zeta.
  unfold handler_of, log_of.
  cbn [fst snd Await.stage Await.handler Await.sent app
       Await.stream_of arrivals ending].
  rewrite drain_message. auto.
Qed.

(** ** Status clears of a run whose stream is exhausted *)

Lemma own_stops_cons (own_id : string) (t : Await.Tick)
  (rest : list Await.Tick) :
  Await.own_stops own_id (t :: rest)
  = (Await.own_stops own_id [t] + Await.own_stops own_id rest)%nat.
Proof.
  destruct t as [|e|event| |]; simpl; try reflexivity.
  now destruct (differs (message_id event) own_id).
Qed.

(** A step adds a status clear only for a stop event for the message, or
    as the one clear of [run] itself. *)
Lemma step_clears (js : Builtins) (m : MessageResponse) (t : Await.Tick)
  (c : Await.Config) :
  c.(Await.handler).(message) = m ->
  (Await.step js t c).(Await.handler).(message) = m
  /\ (count is_clear (Await.step js t c).(Await.sent)
      + Await.owed (Await.step js t c)
      <= count is_clear c.(Await.sent) + Await.owed c
         + Await.own_stops m.(id) [t])%nat.
Proof.
  intros M. destruct t as [|e|event| |]; simpl.
  - unfold Await.resume, Await.catch.
    destruct (Await.stage c)
      as [|calls chunk now|calls chunk now|e|fault| |o] eqn:S.
    + destruct (Await.upcoming c) as [|[chunk now] rest].
      * destruct (Await.finish c) as [|fault].
        -- await_unfold. unfold Await.owed. rewrite S. simpl.
           rewrite !count_app.
           destruct (is_done (Await.handler c)); split; try assumption;
             unfold count; simpl; lia.
        -- destruct (is_done (Await.handler c)) eqn:D; await_unfold;
             rewrite ?D; unfold Await.owed; rewrite S; simpl;
             rewrite ?count_app;
             split; try assumption; unfold count; simpl; lia.
      * destruct (text_step_message (Await.handler c) chunk now)
          as (E1 & _).
        destruct (functionCalls chunk) as [[|call calls]|]; await_unfold;
          unfold Await.owed; rewrite S; simpl;
          rewrite ?E1, ?count_app, ?text_step_quiet
            by (intros; reflexivity);
          split; try assumption; unfold count; simpl; lia.
    + destruct (text_step_message (Await.handler c) chunk now)
        as (E1 & _).
      destruct (Await.next_search js calls) as [[query rest]|];
        await_unfold; unfold Await.owed; rewrite S; simpl;
        rewrite ?E1, ?count_app, ?text_step_quiet
          by (intros; reflexivity);
        split; try assumption; unfold count; simpl; lia.
    + destruct (text_step_message (Await.handler c) chunk now)
        as (E1 & _).
      destruct (Await.next_search js calls) as [[query rest]|];
        await_unfold; unfold Await.owed; rewrite S; simpl;
        rewrite ?E1, ?count_app, ?text_step_quiet
          by (intros; reflexivity);
        split; try assumption; unfold count; simpl; lia.
    + destruct (is_done (Await.handler c)) eqn:D; await_unfold;
        rewrite ?D; unfold Await.owed; rewrite S; simpl;
        rewrite ?count_app;
        split; try assumption; unfold count; simpl; lia.
    + destruct (Await.error_arguments fault) as [[u v]|e];
        await_unfold; unfold Await.owed; rewrite S; simpl;
        rewrite ?count_app;
        destruct (is_done (Await.handler c)); split; try assumption;
        unfold count; simpl; lia.
    + await_unfold. unfold Await.owed. rewrite S. simpl.
      rewrite ?count_app.
      destruct (is_done (Await.handler c)); split; try assumption;
        unfold count; simpl; lia.
    + split; [assumption|lia].
  - unfold Await.rejects.
    destruct (Await.stage c) eqn:S; await_unfold;
      unfold Await.owed; rewrite ?S; simpl; rewrite ?count_app;
      try (split; [assumption|lia]);
      destruct (is_done (Await.handler c)); split; try assumption;
      unfold count; simpl; lia.
  - unfold Await.stop_arrives.
    destruct (listening (Await.handler c)); [|split; [assumption|lia]].
    destruct (is_done (Await.handler c)); simpl;
      [split; [assumption|lia]|].
    rewrite M.
    destruct (differs (message_id event) (id m));
      [split; [assumption|lia]|].
    unfold Await.owed. simpl. rewrite count_app.
    split; [assumption|]. unfold count. simpl. lia.
  - unfold Await.stop_resumes.
    destruct (Await.suspended c); [split; [assumption|lia]|].
    rewrite dispose_eq. unfold Await.owed.
    destruct (is_done (Await.handler c)); cbn [fst snd Await.handler
      Await.stage Await.sent]; rewrite ?app_nil_r, ?count_app;
      split; try assumption; unfold count; simpl; lia.
  - unfold Await.stop_rejects.
    destruct (Await.suspended c); split; try assumption;
      unfold Await.owed; simpl; lia.
Qed.

Lemma exec_clears (js : Builtins) (m : MessageResponse)
  (schedule : list Await.Tick) (c : Await.Config) :
  c.(Await.handler).(message) = m ->
  (count is_clear (Await.exec js schedule c).(Await.sent)
   + Await.owed (Await.exec js schedule c)
   <= count is_clear c.(Await.sent) + Await.owed c
      + Await.own_stops m.(id) schedule)%nat.
Proof.
  revert c. induction schedule as [|t rest IH]; intros c M.
  - simpl. lia.
  - destruct (@step_clears js m t c M) as [M' B].
    specialize (IH _ M'). rewrite own_stops_cons. simpl Await.exec. lia.
Qed.

(** Two stop events for the message arrive before the first call of the
    listener gets past its [await] (l.139): both pass the test of line 133
    and the log of the completed run holds three status clears. *)
Example two_stops_before_dispose :
  (Await.exec Sample.js
     [Await.StopArrives (Sample.stop "m1");
      Await.StopArrives (Sample.stop "m1");
      Await.StopResumes; Await.StopResumes;
      Await.Resume; Await.Resume]
     (Await.start Sample.msg [(Sample.text_chunk "Hel", 5000)]
        Await.Exhausted)).(Await.sent)
  = [SendEvent (ai_indicator_clear (Some "messaging:c1"%string) "m1");
     SendEvent (ai_indicator_clear (Some "messaging:c1"%string) "m1");
     Off; OnDispose;
     DateNow 5000;
     PartialUpdateMessage "m1" "Hel" None;
     PartialUpdateMessage "m1" "Hel" None;
     SendEvent (ai_indicator_clear (Some "messaging:c1"%string) "m1")].
Proof. reflexivity. Qed.

(** X1.  The stream yields [chunks] and is exhausted.  In whatever order
    [run] goes on, stop events arrive, the calls of the stop listener go
    on and awaited transport calls settle or fail, the log never holds
    more status clears than one for [run] itself and one for each stop
    event delivered for its message.  A schedule that lets [run] go on
    often enough brings it to its end.  If no awaited transport call
    fails, then once [run] has settled it has returned normally, the
    handler is done and the log holds at least one status clear: exactly
    one if no stop event for the message was delivered. *)
Theorem clears_answer_stop_events (js : Builtins) (m : MessageResponse)
  (chunks : list (GenerateContentResponse * Z))
  (schedule : list Await.Tick) :
  let final := Await.exec js schedule (Await.start m chunks Await.Exhausted) in
  (count is_clear final.(Await.sent)
   <= 1 + Await.own_stops m.(id) schedule)%nat
  /\ ((Await.cost chunks <= Await.resumes schedule)%nat ->
      exists o, final.(Await.stage) = Await.Settled o)
  /\ (forallb Await.settles schedule = true ->
      forall o, final.(Await.stage) = Await.Settled o ->
      o = Returned tt
      /\ is_done final.(Await.handler) = true
      /\ (1 <= count is_clear final.(Await.sent))%nat
      /\ (Await.own_stops m.(id) schedule = 0%nat ->
          count is_clear final.(Await.sent) = 1%nat)).
Proof.
  intros final.
  pose proof (@exec_clears js m schedule
                (Await.start m chunks Await.Exhausted) eq_refl) as B.
  fold final in B. simpl in B.
  split; [lia|]. split.
  - intros H. apply exec_settles. exact H.
  - intros Q o S.
    pose proof (exec_sound js schedule Q
                  (start_sound m chunks Await.Exhausted))
      as (_ & _ & _ & _ & J5 & J6 & _ & _ & _ & J10).
    fold final in J5, J6, J10.
    specialize (J10 o S eq_refl).
    repeat split.
    + apply (J6 o S). now left.
    + exact (J5 o S).
    + exact J10.
    + intros N. lia.
Qed.
